(** * Pinion text injection ([packages/pinion/src/ops/inject.ts])

    A shallow embedding of the injection operation of the Pinion code
    generator: the newline detection, the anchor resolvers [before],
    [after], [prepend] and [append], the line search [getLineNumber] with
    its cross-line fallback, and the [inject] operation itself, which reads
    a file, splices the rendered content into its lines and writes it back.

    JavaScript strings are modelled as [string] (a sequence of code units,
    one [ascii] each), numbers that index lines as [Z], arrays as [list],
    the file system as a [gmap] from path to content, and [async] functions
    that may throw as computations in a state-and-exception monad over an
    explicit [World]. *)

From Stdlib Require Import ZArith Lia Ascii String.
From stdpp Require Import base option list gmap strings.

Local Open Scope string_scope.
Local Open Scope Z_scope.

(* stdpp blocks [simpl] on string concatenation; let it compute on
   constructors. *)
#[local] Arguments String.append !s1 s2 : simpl nomatch.

(** ** Host strings *)

Module Host.

Definition CR : ascii := "013"%char.
Definition LF : ascii := "010"%char.

(** The two line separators, ["\r\n"] and ["\n"]. *)
Definition crlf : string := String CR (String LF EmptyString).
Definition lf : string := String LF EmptyString.

Definition isCR (c : ascii) : bool := Ascii.eqb c CR.
Definition isLF (c : ascii) : bool := Ascii.eqb c LF.

(** [Array.prototype.join]: the elements separated by [sep]; the empty
    array gives the empty string. *)
Fixpoint join (sep : string) (xs : list string) : string :=
  match xs with
  | [] => EmptyString
  | [x] => x
  | x :: rest => x ++ sep ++ join sep rest
  end.

(** Appending one code unit at the end of a string. *)
Definition snoc (s : string) (c : ascii) : string := s ++ String c EmptyString.

(** [String.prototype.split] with a string separator.  The scan keeps the
    piece read so far in [acc]; when the separator starts at the current
    position the piece is emitted and the remaining [skip] code units of
    the separator are passed over. *)
Fixpoint splitFrom (sep : string) (skip : nat) (acc : string) (s : string)
  : list string :=
  match s with
  | EmptyString => [acc]
  | String c s' =>
      match skip with
      | S k => splitFrom sep k acc s'
      | O =>
          if String.prefix sep s
          then acc :: splitFrom sep (Nat.pred (String.length sep)) EmptyString s'
          else splitFrom sep O (snoc acc c) s'
      end
  end.

(** With the empty separator the string falls apart into its code units
    (and the empty string into the empty array). *)
Fixpoint codeUnits (s : string) : list string :=
  match s with
  | EmptyString => []
  | String c s' => String c EmptyString :: codeUnits s'
  end.

Definition split (sep : string) (s : string) : list string :=
  match sep with
  | EmptyString => codeUnits s
  | _ => splitFrom sep O EmptyString s
  end.

(** [str.match(/(?:\r?\n)/g) || []]: every line separator of [s], left to
    right, a carriage return belonging to the line feed that follows it. *)
Fixpoint matchAllEOL (s : string) : list string :=
  match s with
  | EmptyString => []
  | String c s' =>
      if isLF c then lf :: matchAllEOL s'
      else if isCR c then
        match s' with
        | String c' s'' =>
            if isLF c' then crlf :: matchAllEOL s'' else matchAllEOL s'
        | EmptyString => []
        end
      else matchAllEOL s'
  end.

(** [str.split(/\r?\n/)]: the pieces between the matches of [EOLRegex]. *)
Fixpoint splitEOLFrom (acc : string) (s : string) : list string :=
  match s with
  | EmptyString => [acc]
  | String c s' =>
      if isLF c then acc :: splitEOLFrom EmptyString s'
      else if isCR c then
        match s' with
        | String c' s'' =>
            if isLF c' then acc :: splitEOLFrom EmptyString s''
            else splitEOLFrom (snoc acc c) s'
        | EmptyString => [snoc acc c]
        end
      else splitEOLFrom (snoc acc c) s'
  end.

Definition splitEOL (s : string) : list string := splitEOLFrom EmptyString s.

(** [str.substring(0, n)]: the first [n] code units, all of [str] when it
    is shorter. *)
Definition substringTo (n : nat) (s : string) : string := String.substring 0 n s.

(** [str.substring(0, end)] when [end] may be [undefined]: an absent end
    is the end of the string. *)
Definition substringUpTo (end_ : option nat) (s : string) : string :=
  match end_ with
  | Some n => substringTo n s
  | None => s
  end.

(** [lines.splice(index, 0, item)] for [index >= 0]: [item] becomes the
    element at [index], or the last element when [index] is past the end. *)
Definition splice (xs : list string) (index : Z) (item : string) : list string :=
  take (Z.to_nat index) xs ++ item :: drop (Z.to_nat index) xs.

End Host.

(** ** Host regular expressions *)

Module RegExp.
Import Host.

(** The array [str.match(re)] returns when it is not [null]: element 0 is
    the matched text and the following elements are the capture groups
    ([undefined] for a group that did not take part); [index] is the
    offset of the match.  With the global flag the array holds every match
    instead and has no [index]. *)
Record MatchArray := {
  matched : string;
  groups : list (option string);
  index : option nat
}.

(** A regular expression object: how it prints and what [str.match]
    answers for it.  The answer is taken to depend on the string alone:
    [match] restarts a global expression at offset 0, and a failed match
    resets [lastIndex]. *)
Record t := {
  source : string;
  flags : string;
  exec : string -> option MatchArray
}.

(** [re.toString()], also what a template literal prints for [re]. *)
Definition toString (re : t) : string := "/" ++ source re ++ "/" ++ flags re.

(** [m.length]. *)
Definition arrayLength (m : MatchArray) : nat := S (length (groups m)).

(** [m.toString()], that is [m.join(',')]: [undefined] prints as the empty
    string. *)
Definition arrayToString (m : MatchArray) : string :=
  join "," (matched m :: map (default EmptyString) (groups m)).

(** The syntax characters of the pattern grammar:
    [^ $ \ . * + ? ( ) [ ] { } |]. *)
Definition SyntaxCharacter (c : ascii) : bool :=
  existsb (Ascii.eqb c)
    ["^"; "$"; "\"; "."; "*"; "+"; "?"; "("; ")"; "["; "]"; "{"; "}"; "|"]%char.

(** The fragment of the pattern grammar without operators: a pattern
    character (any code unit that is not a syntax character) stands for
    itself, and so does a syntax character after a backslash.  The result
    is the literal text the pattern denotes; a pattern with an unescaped
    syntax character, or a backslash before anything else, lies outside
    the fragment. *)
Fixpoint parseLiteral (pattern : string) : option string :=
  match pattern with
  | EmptyString => Some EmptyString
  | String c rest =>
      if Ascii.eqb c "\"%char then
        match rest with
        | String d rest' =>
            if SyntaxCharacter d then String d <$> parseLiteral rest' else None
        | EmptyString => None
        end
      else if SyntaxCharacter c then None
      else String c <$> parseLiteral rest
  end.

(** Matching a pattern that denotes the literal text [lit]: the leftmost
    occurrence of [lit], no capture groups. *)
Definition execLiteral (lit : string) (text : string) : option MatchArray :=
  match String.index 0 lit text with
  | Some i => Some {| matched := lit; groups := []; index := Some i |}
  | None => None
  end.

(** [new RegExp(pattern, 'm')] on that fragment; [None] outside of it.
    The multiline flag only changes what [^] and [$] match, which the
    fragment does not have.  [source] is the pattern as it was given;
    [inject.ts] never prints an expression it has built. *)
Definition construct (pattern : string) : option t :=
  match parseLiteral pattern with
  | Some lit => Some {| source := pattern; flags := "m"; exec := execLiteral lit |}
  | None => None
  end.

End RegExp.

(** ** Results, contexts and the world *)

(** What an [async] function settles to: a value, or a thrown [Error] with
    its message. *)
Inductive result (A : Type) : Type :=
| Ok (a : A)
| Throw (message : string).
Arguments Ok {A} a.
Arguments Throw {A} message.

Definition isThrow {A} (r : result A) : bool :=
  match r with Ok _ => false | Throw _ => true end.

(** Calls into [fs] and [fs/promises], in the order they are made. *)
Inductive FsCall :=
| ExistsSync (path : string)
| ReadFile (path : string)
| WriteFile (path : string) (data : string).

Record World := {
  files : gmap string string;
  calls : list FsCall;
  notices : list string
}.

(** Computations that read and change the world and may throw. *)
Definition IO (A : Type) : Type := World -> result A * World.

Definition ret {A} (a : A) : IO A := fun w => (Ok a, w).
Definition throw {A} (message : string) : IO A := fun w => (Throw message, w).
Definition bind {A B} (m : IO A) (k : A -> IO B) : IO B :=
  fun w => match m w with
           | (Ok a, w') => k a w'
           | (Throw e, w') => (Throw e, w')
           end.
Definition lift {A} (r : result A) : IO A := fun w => (r, w).

Declare Scope io_scope.
Delimit Scope io_scope with io.
Notation "x <- m ;; k" := (bind m (fun x => k))
  (at level 100, m at next level, right associativity) : io_scope.
Notation "m ;;; k" := (bind m (fun _ => k))
  (at level 100, right associativity) : io_scope.

Definition record_call (c : FsCall) (w : World) : World :=
  {| files := files w; calls := calls w ++ [c]; notices := notices w |}.

(** [existsSync(path)]. *)
Definition existsSync (path : string) : IO bool :=
  fun w => (Ok (bool_decide (is_Some (files w !! path))), record_call (ExistsSync path) w).

(** [(await readFile(path)).toString()]. *)
Definition readFile (path : string) : IO string :=
  fun w => match files w !! path with
           | Some data => (Ok data, record_call (ReadFile path) w)
           | None => (Throw ("ENOENT: no such file or directory, open '" ++ path ++ "'"),
                      record_call (ReadFile path) w)
           end.

(** [await writeFile(path, data)]. *)
Definition writeFile (path data : string) : IO unit :=
  fun w => (Ok tt, {| files := <[path := data]> (files w);
                      calls := calls w ++ [WriteFile path data];
                      notices := notices w |}).

(** [ctx.pinion.logger.notice(message)]. *)
Definition notice (message : string) : IO unit :=
  fun w => (Ok tt, {| files := files w; calls := calls w;
                      notices := notices w ++ [message] |}).

(** ** The pipeline context ([../core], [./helpers]) *)

(** Modelled from the spec: the trace entries of section 3, a record of
    the action name and its parameters; [../core] and [./helpers], where the
    context and [addTrace] are declared, are not among the sources. *)
Record TraceEntry := {
  action : string;
  parameters : list (string * string)
}.

(** Modelled from the spec: the context of section 3, with its working
    directory, its append-only trace and the caller's own fields (of an
    arbitrary type [F]); the logger it carries writes to the [notices] of
    the [World]. *)
Record PinionContext (F : Type) := {
  cwd : string;
  trace : list TraceEntry;
  fields : F
}.
Arguments cwd {F} _.
Arguments trace {F} _.
Arguments fields {F} _.

(** Modelled from the spec: a [Callable<T, C>] of section 3 is a literal
    value or a function of the context, which may throw. *)
Inductive Callable (F T : Type) : Type :=
| Literal (value : T)
| Computed (fn : PinionContext F -> result T).
Arguments Literal {F T} value.
Arguments Computed {F T} fn.

(** Modelled from the spec: [getCallable] of section 4.1 returns a plain
    value unchanged and calls a function with the context, passing on
    whatever it throws. *)
Definition getCallable {F T} (callable : Callable F T) (ctx : PinionContext F)
  : result T :=
  match callable with
  | Literal value => Ok value
  | Computed fn => fn ctx
  end.

(** Modelled from the spec: [addTrace] of section 4.6 returns the context
    with one more trace entry at the end and nothing else changed. *)
Definition addTrace {F} (ctx : PinionContext F) (name : string)
    (data : list (string * string)) : PinionContext F :=
  {| cwd := cwd ctx;
     trace := trace ctx ++ [{| action := name; parameters := data |}];
     fields := fields ctx |}.

(** ** [inject.ts] *)

(** [string | RegExp]. *)
Inductive Pattern :=
| PString (s : string)
| PRegExp (re : RegExp.t).

(** What a template literal prints for a pattern. *)
Definition showPattern (p : Pattern) : string :=
  match p with
  | PString s => s
  | PRegExp re => RegExp.toString re
  end.

(** What a [Location] resolves to. *)
Record LocationResult := {
  index : Z;
  pattern : option Pattern
}.

(** The character class [[.*+?^${}()|[\]\\]] of [escapeString]. *)
Definition escaped (c : ascii) : bool :=
  existsb (Ascii.eqb c)
    ["."; "*"; "+"; "?"; "^"; "$"; "{"; "}"; "("; ")"; "|"; "["; "]"; "\"]%char.

(** [str.replace(/[.*+?^${}()|[\]\\]/g, '\\$&')]: a backslash goes before
    every code unit of the class. *)
Fixpoint escapeString (str : string) : string :=
  match str with
  | EmptyString => EmptyString
  | String c rest =>
      if escaped c then String "\"%char (String c (escapeString rest))
      else String c (escapeString rest)
  end.

(** [pattern instanceof RegExp ? pattern : new RegExp(escapeString(pattern), 'm')] *)
Definition matcherOf (pattern : Pattern) : result RegExp.t :=
  match pattern with
  | PRegExp re => Ok re
  | PString s =>
      match RegExp.construct (escapeString s) with
      | Some re => Ok re
      | None => Throw "Invalid regular expression"
      end
  end.

(** What [matcherOf] is shown below to build for every string pattern: a
    regular expression that looks for the literal text [s]. *)
Definition literalRegExp (s : string) : RegExp.t :=
  {| RegExp.source := escapeString s;
     RegExp.flags := "m";
     RegExp.exec := RegExp.execLiteral s |}.

(** [xs.findIndex(p)], counting from [k]. *)
Fixpoint findIndexFrom {A} (p : A -> bool) (k : Z) (xs : list A) : Z :=
  match xs with
  | [] => -1
  | x :: rest => if p x then k else findIndexFrom p (k + 1) rest
  end.

Definition findIndex {A} (p : A -> bool) (xs : list A) : Z := findIndexFrom p 0 xs.

(** [l.match(matcher)] as a condition. *)
Definition matches (matcher : RegExp.t) (l : string) : bool :=
  match RegExp.exec matcher l with Some _ => true | None => false end.

(** [fullMatch.index || 0]. *)
Definition indexOr0 (m : RegExp.MatchArray) : nat := default 0%nat (RegExp.index m).

Definition getLineNumber (pattern : Pattern) (lines : list string) (isBefore : bool)
  : result Z :=
  match matcherOf pattern with
  | Throw e => Throw e
  | Ok matcher =>
      let oneLineMatchIndex := findIndex (matches matcher) lines in
      if oneLineMatchIndex <? 0 then
        let fullText := Host.join Host.lf lines in
        match RegExp.exec matcher fullText with
        | Some fullMatch =>
            if negb (Nat.eqb (RegExp.arrayLength fullMatch) 0) then
              if isBefore then
                let fullTextUntilMatchStart :=
                  Host.substringUpTo (RegExp.index fullMatch) fullText in
                Ok (Z.of_nat (length (Host.splitEOL fullTextUntilMatchStart)) - 1)
              else
                let matchEndIndex :=
                  (indexOr0 fullMatch
                   + String.length (RegExp.arrayToString fullMatch))%nat in
                let fullTextUntilMatchEnd := Host.substringTo matchEndIndex fullText in
                Ok (Z.of_nat (length (Host.splitEOL fullTextUntilMatchEnd)))
            else Ok oneLineMatchIndex
        | None => Ok oneLineMatchIndex
        end
      else Ok (oneLineMatchIndex + (if isBefore then 0 else 1))
  end.

Section Inject.

(** The caller's part of the context. *)
Context {F : Type}.

(** [os.EOL], the line separator of the platform. *)
Variable EOL : string.

(** [path.relative(from, to)]. *)
Variable relative : string -> string -> string.

Definition Location : Type :=
  list string -> PinionContext F -> string -> result LocationResult.

Definition before (pattern : Callable F Pattern) : Location :=
  fun lines ctx fileName =>
    match getCallable pattern ctx with
    | Throw e => Throw e
    | Ok line =>
        match getLineNumber line lines true with
        | Throw e => Throw e
        | Ok index =>
            if index <? 0 then
              Throw ("Could not find line '" ++ showPattern line ++ "' in file "
                     ++ fileName ++ " to inject content before")
            else Ok {| index := index; pattern := Some line |}
        end
    end.

Definition after (pattern : Callable F Pattern) : Location :=
  fun lines ctx fileName =>
    match getCallable pattern ctx with
    | Throw e => Throw e
    | Ok line =>
        match getLineNumber line lines false with
        | Throw e => Throw e
        | Ok index =>
            if index <? 0 then
              Throw ("Could not find line '" ++ showPattern line ++ "' in file "
                     ++ fileName ++ " to inject content after")
            else Ok {| index := index; pattern := Some line |}
        end
    end.

Definition prepend : Location :=
  fun _ _ _ => Ok {| index := 0; pattern := None |}.

Definition append : Location :=
  fun lines _ _ => Ok {| index := Z.of_nat (length lines); pattern := None |}.

Definition newline (str : string) : string :=
  let newlines := Host.matchAllEOL str in
  if Nat.eqb (length newlines) 0 then EOL
  else
    let crlf := Z.of_nat (length (List.filter (fun nl => String.eqb nl Host.crlf) newlines)) in
    let lf := Z.of_nat (length newlines) - crlf in
    if lf <? crlf then Host.crlf else Host.lf.

Definition inject (template : Callable F string) (location : Location)
    (target : Callable F string) (ctx : PinionContext F)
  : IO (PinionContext F) :=
  (fileName <- lift (getCallable target ctx) ;;
   content <- lift (getCallable template ctx) ;;
   let relativeName := relative (cwd ctx) fileName in
   found <- existsSync fileName ;;
   if negb found then
     throw ("Cannot inject to '" ++ fileName ++ "'. The file doesn't exist.")
   else
     fileContent <- readFile fileName ;;
     let NL := newline fileContent in
     let lines := Host.split NL fileContent in
     loc <- lift (location lines ctx relativeName) ;;
     let lines' :=
       if 0 <=? index loc then Host.splice lines (index loc) content else lines in
     let newContent := Host.join NL lines' in
     writeFile fileName newContent ;;;
     notice ("Updated " ++ relativeName) ;;;
     ret (addTrace ctx "inject" [("fileName", fileName); ("content", content)]))%io.

End Inject.

(** ** Notions used to state the properties *)

Module Lines.
Import Host.

(** The number of line feeds of a string. *)
Fixpoint countLF (s : string) : nat :=
  match s with
  | EmptyString => 0%nat
  | String c s' => ((if isLF c then 1 else 0) + countLF s')%nat
  end.

(** The number of line separators of one kind ([crlf] or [lf]) among the
    separators of [s]. *)
Definition countSeparators (kind : string) (s : string) : nat :=
  length (List.filter (fun nl => String.eqb nl kind) (matchAllEOL s)).

(** The position in [lines] of the line that holds the code unit at
    [offset] of the lines joined by one code unit; the separator after a
    line counts as its end. *)
Fixpoint lineAt (lines : list string) (offset : nat) : nat :=
  match lines with
  | [] => 0%nat
  | l :: rest =>
      if (offset <=? String.length l)%nat then 0%nat
      else S (lineAt rest (offset - String.length l - 1))
  end.

(** Every line feed of [s] follows a carriage return; [afterCR] tells
    whether a carriage return stands before [s]. *)
Fixpoint onlyCRLF (afterCR : bool) (s : string) : bool :=
  match s with
  | EmptyString => true
  | String c s' =>
      if isLF c then afterCR && onlyCRLF false s' else onlyCRLF (isCR c) s'
  end.

(** No line feed of [s] follows a carriage return. *)
Fixpoint onlyLF (afterCR : bool) (s : string) : bool :=
  match s with
  | EmptyString => true
  | String c s' =>
      if isLF c then negb afterCR && onlyLF false s' else onlyLF (isCR c) s'
  end.

Fixpoint lastIsCR (afterCR : bool) (s : string) : bool :=
  match s with
  | EmptyString => afterCR
  | String c s' => lastIsCR (isCR c) s'
  end.

(** The last code unit of [s] is a carriage return. *)
Definition endsWithCR (s : string) : bool := lastIsCR false s.

(** [s] without its first [n] code units. *)
Fixpoint dropStr (n : nat) (s : string) : string :=
  match n, s with
  | O, _ => s
  | S n', String _ s' => dropStr n' s'
  | S _, EmptyString => EmptyString
  end.

(** [text] holds [s] at some offset. *)
Definition contains (text s : string) : Prop :=
  exists i : nat, String.substring i (String.length s) text = s.

End Lines.

(** ** Fixtures for the worked examples *)

Module Fixtures.
Import Host.

(** [path.relative] when the target lies inside the working directory. *)
Definition relativeInside (from to : string) : string :=
  if String.prefix (from ++ "/") to
  then Lines.dropStr (S (String.length from)) to
  else to.

Definition ABC : list string := ["A"; "B"; "C"].

(** The text ["B\nC"]. *)
Definition B_LF_C : string := "B" ++ lf ++ "C".

(** The regular expression [/(B\nC)/]: the literal text ["B\nC"] inside a
    capture group. *)
Definition capture_B_LF_C : RegExp.t :=
  {| RegExp.source := "(B\nC)";
     RegExp.flags := "";
     RegExp.exec := fun text =>
       match String.index 0 B_LF_C text with
       | Some i => Some {| RegExp.matched := B_LF_C;
                           RegExp.groups := [Some B_LF_C];
                           RegExp.index := Some i |}
       | None => None
       end |}.

Definition ctx0 : PinionContext unit :=
  {| cwd := "/app"; trace := []; fields := tt |}.

Definition target0 : string := "/app/src/index.ts".

Definition world (content : string) : World :=
  {| files := {[ target0 := content ]}; calls := []; notices := [] |}.

(** ["A\nB\nC"], ["A\r\nB\r\nC\nD"] and ["A\r\nB\r\nC"]. *)
Definition unixFile : string := "A" ++ lf ++ "B" ++ lf ++ "C".
Definition mixedFile : string := "A" ++ crlf ++ "B" ++ crlf ++ "C" ++ lf ++ "D".
Definition dosFile : string := "A" ++ crlf ++ "B" ++ crlf ++ "C".

(** The matches of the literal text [lit] in [text], left to right and
    without overlap; [fuel] bounds their number. *)
Fixpoint occurrences (fuel : nat) (lit text : string) : list string :=
  match fuel with
  | O => []
  | S fuel' =>
      match String.index 0 lit text with
      | Some i =>
          lit :: occurrences fuel' lit (Lines.dropStr (i + String.length lit) text)
      | None => []
      end
  end.

(** The regular expression [/B\nC/g]: with the global flag [str.match]
    answers the array of all matches, which has no [index]. *)
Definition global_B_LF_C : RegExp.t :=
  {| RegExp.source := "B\nC";
     RegExp.flags := "g";
     RegExp.exec := fun text =>
       match occurrences (String.length text) B_LF_C text with
       | [] => None
       | first :: others =>
           Some {| RegExp.matched := first;
                   RegExp.groups := map Some others;
                   RegExp.index := None |}
       end |}.

Definition ABCDE : list string := ["A"; "B"; "C"; "D"; "E"].

(** The text ["C\nD"], and the lines of ["A\nB\r\nC\r\nD"] split on CRLF:
    the first of them holds a line feed. *)
Definition C_LF_D : string := "C" ++ lf ++ "D".
Definition mixedLines : list string := ["A" ++ lf ++ "B"; "C"; "D"].

(** A resolver that reports "not found" by a negative index instead of
    throwing. *)
Definition notFound : @Location unit :=
  fun _ _ _ => Ok {| index := -1; pattern := None |}.

End Fixtures.

(** ** Counting separators by looking back *)

Module Counting.
Import Host.

(** The CRLF separators of [s]: its line feeds that follow a carriage
    return; [afterCR] tells whether a carriage return stands before [s]. *)
Fixpoint crlfBehind (afterCR : bool) (s : string) : nat :=
  match s with
  | EmptyString => 0%nat
  | String c s' =>
      if isLF c then ((if afterCR then 1 else 0) + crlfBehind false s')%nat
      else crlfBehind (isCR c) s'
  end.

(** The LF separators of [s]: its line feeds that do not follow a carriage
    return. *)
Fixpoint lfBehind (afterCR : bool) (s : string) : nat :=
  match s with
  | EmptyString => 0%nat
  | String c s' =>
      if isLF c then ((if afterCR then 0 else 1) + lfBehind false s')%nat
      else lfBehind (isCR c) s'
  end.

(** The first code unit of [s] is a line feed. *)
Definition startsWithLF (s : string) : bool :=
  match s with String d _ => isLF d | EmptyString => false end.

End Counting.

(** ** Facts about host strings *)

Module HostFacts.
Import Host Lines.

Lemma append_nil_r (s : string) : s +:+ "" = s.
Proof. induction s as [|c s IH]; simpl; [reflexivity | now rewrite IH]. Qed.

Lemma append_assoc (a b c : string) : (a +:+ b) +:+ c = a +:+ (b +:+ c).
Proof. induction a as [|x a IH]; simpl; [reflexivity | now rewrite IH]. Qed.

Lemma length_append (a b : string) :
  String.length (a +:+ b) = (String.length a + String.length b)%nat.
Proof. induction a as [|x a IH]; simpl; [reflexivity | now rewrite IH]. Qed.

Lemma snoc_append acc c s : snoc acc c +:+ s = acc +:+ String c s.
Proof. unfold snoc. now rewrite append_assoc. Qed.

Lemma prefix_cons c p d s :
  String.prefix (String c p) (String d s) = true ->
  c = d /\ String.prefix p s = true.
Proof. simpl. destruct (ascii_dec c d) as [->|]; [tauto | discriminate]. Qed.

Lemma prefix_drop p : forall s,
  String.prefix p s = true -> p +:+ dropStr (String.length p) s = s.
Proof.
  induction p as [|c p IH]; intros s H; [reflexivity|].
  destruct s as [|d s]; [discriminate|].
  apply prefix_cons in H as [-> H]. simpl. now rewrite IH.
Qed.

(** *** [join] and [split] *)

Lemma join_cons sep x xs :
  xs <> [] -> join sep (x :: xs) = x +:+ sep +:+ join sep xs.
Proof. destruct xs; [congruence | reflexivity]. Qed.

Lemma join_app sep (a b : list string) :
  a <> [] -> b <> [] ->
  join sep (a ++ b) = join sep a +:+ sep +:+ join sep b.
Proof.
  intros Ha Hb. induction a as [|x a IH]; [done|].
  destruct a as [|y a].
  - cbn [app]. now rewrite join_cons.
  - change ((x :: y :: a) ++ b)%list with (x :: ((y :: a) ++ b))%list.
    rewrite join_cons by (now destruct a). rewrite IH by done.
    rewrite (join_cons sep x (y :: a)) by done.
    now rewrite !append_assoc.
Qed.

Lemma splitFrom_nonempty sep : forall s k acc, splitFrom sep k acc s <> [].
Proof.
  induction s as [|c s IH]; intros k acc; cbn [splitFrom]; [done|].
  destruct k; [|apply IH].
  destruct (String.prefix sep (String c s)); [done | apply IH].
Qed.

Lemma join_splitFrom sep : sep <> "" -> forall s k acc,
  join sep (splitFrom sep k acc s) = acc +:+ dropStr k s.
Proof.
  intros Hsep. induction s as [|c s IH]; intros k acc.
  - destruct k; simpl; now rewrite append_nil_r.
  - destruct k as [|k]; [|simpl; apply IH].
    cbn [splitFrom]. destruct (String.prefix sep (String c s)) eqn:Hp.
    + rewrite join_cons by apply splitFrom_nonempty.
      rewrite IH. cbn [String.append dropStr]. f_equal.
      destruct sep as [|d sep]; [congruence|].
      apply prefix_cons in Hp as [-> Hp]. cbn.
      f_equal. now apply prefix_drop.
    + rewrite IH. cbn [dropStr]. apply snoc_append.
Qed.

Lemma join_codeUnits s : join "" (codeUnits s) = s.
Proof.
  induction s as [|c s IH]; [reflexivity|].
  cbn [codeUnits]. rewrite <- IH at 2. now destruct (codeUnits s).
Qed.

(** Joining the pieces of a split with the separator gives the string
    back, whatever the separator. *)
Lemma join_split sep s : join sep (split sep s) = s.
Proof.
  destruct sep as [|d sep]; [apply join_codeUnits|].
  unfold split. now rewrite join_splitFrom.
Qed.

Lemma split_nonempty sep s : sep <> "" -> split sep s <> [].
Proof.
  destruct sep; [done|]. intros _. apply splitFrom_nonempty.
Qed.

(** *** Prefixes *)

Lemma substringTo_0 s : substringTo 0 s = "".
Proof. now destruct s. Qed.

Lemma substringTo_cons n c s :
  substringTo (S n) (String c s) = String c (substringTo n s).
Proof. reflexivity. Qed.

Lemma substringTo_short a : forall i b,
  (i <= String.length a)%nat -> substringTo i (a +:+ b) = substringTo i a.
Proof.
  induction a as [|c a IH]; intros i b Hi.
  - cbn in Hi. assert (i = 0%nat) as -> by lia. now rewrite !substringTo_0.
  - destruct i as [|i]; [now rewrite !substringTo_0|].
    cbn in Hi. simpl String.append.
    rewrite !substringTo_cons, IH by lia. reflexivity.
Qed.

Lemma substringTo_long a : forall i b,
  (String.length a <= i)%nat ->
  substringTo i (a +:+ b) = a +:+ substringTo (i - String.length a) b.
Proof.
  induction a as [|c a IH]; intros i b Hi.
  - cbn. now rewrite Nat.sub_0_r.
  - destruct i as [|i]; [cbn in Hi; lia|].
    cbn in Hi. simpl String.append.
    rewrite substringTo_cons, IH by lia. reflexivity.
Qed.

(** *** Counting line separators *)

Lemma isLF_not_isCR c : isLF c = true -> isCR c = false.
Proof. unfold isLF, isCR. intros H%Ascii.eqb_eq. now subst. Qed.

Lemma matchAllEOL_CR c s :
  matchAllEOL (String CR (String c s))
  = if isLF c then crlf :: matchAllEOL s else matchAllEOL (String c s).
Proof. reflexivity. Qed.

Lemma length_matchAllEOL s : length (matchAllEOL s) = countLF s.
Proof.
  induction s as [|c s IH]; [reflexivity|].
  cbn [matchAllEOL countLF]. destruct (isLF c) eqn:Hc; [cbn; now rewrite IH|].
  destruct (isCR c); [|exact IH].
  destruct s as [|d s]; [reflexivity|].
  cbn [matchAllEOL countLF] in IH |- *.
  destruct (isLF d); [|exact IH]. cbn in IH |- *. lia.
Qed.

Lemma length_splitEOLFrom s : forall acc,
  length (splitEOLFrom acc s) = S (countLF s).
Proof.
  induction s as [|c s IH]; intros acc; [reflexivity|].
  cbn [splitEOLFrom countLF]. destruct (isLF c) eqn:Hc; [cbn; now rewrite IH|].
  destruct (isCR c); [|apply IH].
  destruct s as [|d s]; [reflexivity|].
  specialize (IH (snoc acc c)).
  cbn [splitEOLFrom countLF] in IH |- *.
  destruct (isLF d); [|exact IH].
  change (length (acc :: splitEOLFrom "" s)) with (S (length (splitEOLFrom "" s))).
  cbn [length] in IH. cbn. lia.
Qed.

(** A split on [EOLRegex] has one piece more than the text has separators. *)
Lemma length_splitEOL s : length (splitEOL s) = S (length (matchAllEOL s)).
Proof. unfold splitEOL. now rewrite length_splitEOLFrom, length_matchAllEOL. Qed.

Lemma countLF_app a b : countLF (a +:+ b) = (countLF a + countLF b)%nat.
Proof. induction a as [|c a IH]; simpl; [reflexivity | rewrite IH; lia]. Qed.

Lemma countLF_substringTo s : forall i,
  countLF s = 0%nat -> countLF (substringTo i s) = 0%nat.
Proof.
  induction s as [|c s IH]; intros i H; [now destruct i|].
  destruct i as [|i]; [reflexivity|].
  rewrite substringTo_cons. cbn [countLF] in H |- *.
  rewrite IH by lia. lia.
Qed.

(** When no line holds a line feed, the separators before an offset of the
    joined text count the lines before the line at that offset. *)
Lemma countLF_lineAt lines : forall i,
  Forall (fun l => countLF l = 0%nat) lines ->
  (i <= String.length (join lf lines))%nat ->
  countLF (substringTo i (join lf lines)) = lineAt lines i.
Proof.
  induction lines as [|l rest IH]; intros i Hno Hi.
  - cbn in *. assert (i = 0%nat) as -> by lia. reflexivity.
  - apply Forall_cons in Hno as [Hl Hrest]. cbn [lineAt].
    destruct (Nat.leb_spec i (String.length l)) as [Hle|Hgt].
    + destruct rest as [|l' rest'].
      * cbn [join]. now apply countLF_substringTo.
      * rewrite join_cons by done. rewrite substringTo_short by done.
        now apply countLF_substringTo.
    + destruct rest as [|l' rest'].
      * cbn [join] in Hi. lia.
      * rewrite join_cons in Hi |- * by done.
        rewrite !length_append in Hi. cbn [String.length lf] in Hi.
        rewrite substringTo_long by lia.
        rewrite countLF_app, Hl.
        destruct (i - String.length l)%nat as [|k] eqn:Hk; [lia|].
        unfold lf at 1. simpl String.append. rewrite substringTo_cons.
        cbn [countLF]. change (isLF LF) with true.
        rewrite IH by (done || lia).
        replace (S k - 1)%nat with k by lia. reflexivity.
Qed.

End HostFacts.


(** ** Facts about line separators *)

Module SeparatorFacts.
Import Host Lines HostFacts.

Lemma crlf_neq_lf : crlf <> lf.
Proof. discriminate. Qed.

(** Every separator [matchAllEOL] finds is one of the two kinds. *)
Lemma matchAllEOL_kinds s :
  Forall (fun nl => nl = crlf \/ nl = lf) (matchAllEOL s).
Proof.
  induction s as [|c s IH]; [constructor|].
  cbn [matchAllEOL]. destruct (isLF c); [constructor; auto|].
  destruct (isCR c) eqn:Hr; [|exact IH].
  destruct s as [|d s]; [constructor|].
  destruct (isLF d) eqn:Hd; [|exact IH].
  cbn [matchAllEOL] in IH. rewrite Hd in IH.
  apply Forall_cons in IH as [_ IH]. constructor; auto.
Qed.

Lemma filter_kinds (nls : list string) :
  Forall (fun nl => nl = crlf \/ nl = lf) nls ->
  length nls
  = (length (List.filter (fun nl => String.eqb nl crlf) nls)
     + length (List.filter (fun nl => String.eqb nl lf) nls))%nat.
Proof.
  induction 1 as [|nl nls [->| ->] _ IH]; [reflexivity| |];
    cbn in IH |- *; lia.
Qed.

(** The separators of a text are its CRLF and its LF separators. *)
Lemma count_separators s :
  length (matchAllEOL s) = (countSeparators crlf s + countSeparators lf s)%nat.
Proof. apply filter_kinds, matchAllEOL_kinds. Qed.

Lemma filter_all (kind : string) (nls : list string) :
  Forall (eq kind) nls ->
  List.filter (fun nl => String.eqb nl kind) nls = nls.
Proof.
  induction 1 as [|nl nls <- _ IH]; [reflexivity|].
  cbn. now rewrite String.eqb_refl, IH.
Qed.

Lemma filter_none (kind other : string) (nls : list string) :
  kind <> other -> Forall (eq other) nls ->
  List.filter (fun nl => String.eqb nl kind) nls = [].
Proof.
  intros Hne. induction 1 as [|nl nls <- _ IH]; [reflexivity|].
  cbn. destruct (String.eqb_spec other kind) as [E|_]; [congruence | exact IH].
Qed.

(** Looking back instead of ahead: all separators are CRLF exactly when
    every line feed follows a carriage return. *)
Lemma allCRLF_spec s :
  (Forall (eq crlf) (matchAllEOL s) <-> onlyCRLF false s = true) /\
  (Forall (eq crlf) (matchAllEOL (String CR s)) <-> onlyCRLF true s = true).
Proof.
  induction s as [|c s [IH1 IH2]].
  - cbn. split; split; auto.
  - assert (H1 : Forall (eq crlf) (matchAllEOL (String c s))
                 <-> onlyCRLF false (String c s) = true).
    { cbn [matchAllEOL onlyCRLF]. destruct (isLF c) eqn:Hc.
      - cbn. split; [|discriminate]. intros H. apply Forall_cons in H as [H _].
        now apply crlf_neq_lf in H.
      - destruct (isCR c) eqn:Hr; [|exact IH1].
        apply Ascii.eqb_eq in Hr. subst c. exact IH2. }
    split; [exact H1|].
    rewrite matchAllEOL_CR. cbn [onlyCRLF]. destruct (isLF c) eqn:Hc.
    + rewrite Forall_cons. cbn. rewrite <- IH1. tauto.
    + rewrite H1. cbn [onlyCRLF]. rewrite Hc. reflexivity.
Qed.

Lemma allLF_spec s :
  (Forall (eq lf) (matchAllEOL s) <-> onlyLF false s = true) /\
  (Forall (eq lf) (matchAllEOL (String CR s)) <-> onlyLF true s = true).
Proof.
  induction s as [|c s [IH1 IH2]].
  - cbn. split; split; auto.
  - assert (H1 : Forall (eq lf) (matchAllEOL (String c s))
                 <-> onlyLF false (String c s) = true).
    { cbn [matchAllEOL onlyLF]. destruct (isLF c) eqn:Hc.
      - rewrite Forall_cons. cbn. rewrite <- IH1. tauto.
      - destruct (isCR c) eqn:Hr; [|exact IH1].
        apply Ascii.eqb_eq in Hr. subst c. exact IH2. }
    split; [exact H1|].
    rewrite matchAllEOL_CR. cbn [onlyLF]. destruct (isLF c) eqn:Hc.
    + cbn. split; [|discriminate]. intros H. apply Forall_cons in H as [H _].
      symmetry in H. now apply crlf_neq_lf in H.
    + rewrite H1. cbn [onlyLF]. rewrite Hc. reflexivity.
Qed.

Lemma onlyCRLF_app a : forall p b,
  onlyCRLF p (a +:+ b) = onlyCRLF p a && onlyCRLF (lastIsCR p a) b.
Proof.
  induction a as [|c a IH]; intros p b; [reflexivity|].
  simpl String.append. cbn [onlyCRLF lastIsCR].
  destruct (isLF c) eqn:Hc.
  - rewrite IH, (isLF_not_isCR _ Hc). now rewrite andb_assoc.
  - apply IH.
Qed.

Lemma onlyLF_app a : forall p b,
  onlyLF p (a +:+ b) = onlyLF p a && onlyLF (lastIsCR p a) b.
Proof.
  induction a as [|c a IH]; intros p b; [reflexivity|].
  simpl String.append. cbn [onlyLF lastIsCR].
  destruct (isLF c) eqn:Hc.
  - rewrite IH, (isLF_not_isCR _ Hc). now rewrite andb_assoc.
  - apply IH.
Qed.

Lemma onlyCRLF_noLF s : forall p, countLF s = 0%nat -> onlyCRLF p s = true.
Proof.
  induction s as [|c s IH]; intros p H; [reflexivity|].
  cbn [countLF onlyCRLF] in *. destruct (isLF c); [lia | now apply IH].
Qed.

Lemma onlyLF_noLF s : forall p, countLF s = 0%nat -> onlyLF p s = true.
Proof.
  induction s as [|c s IH]; intros p H; [reflexivity|].
  cbn [countLF onlyLF] in *. destruct (isLF c); [lia | now apply IH].
Qed.

Lemma onlyCRLF_sep p s : onlyCRLF p (crlf +:+ s) = onlyCRLF false s.
Proof. reflexivity. Qed.

Lemma onlyLF_sep p s : onlyLF p (lf +:+ s) = negb p && onlyLF false s.
Proof. reflexivity. Qed.

(** Inserting a line into a text whose separators are all CRLF, between
    CRLF separators, leaves all separators CRLF. *)
Lemma insert_keeps_CRLF (a b : list string) (content : string) :
  (a ++ b)%list <> [] ->
  countLF content = 0%nat ->
  onlyCRLF false (join crlf (a ++ b)) = true ->
  onlyCRLF false (join crlf (a ++ content :: b)) = true.
Proof.
  intros Hne Hc H.
  pose proof (onlyCRLF_noLF content false Hc) as Hc'.
  destruct a as [|x a], b as [|y b]; [done| | |].
  - cbn [app] in *. rewrite join_cons by done.
    rewrite onlyCRLF_app, onlyCRLF_sep, Hc', H. reflexivity.
  - rewrite app_nil_r in H. rewrite join_app by done.
    change (join crlf [content]) with content.
    rewrite onlyCRLF_app, onlyCRLF_sep, H, Hc'. reflexivity.
  - rewrite join_app in H |- * by done.
    rewrite onlyCRLF_app, onlyCRLF_sep in H. apply andb_prop in H as [Ha Hb].
    rewrite (join_cons crlf content) by done.
    rewrite onlyCRLF_app, onlyCRLF_sep, Ha, onlyCRLF_app, onlyCRLF_sep, Hc', Hb.
    reflexivity.
Qed.

(** The same for LF, when neither the text nor the new line ends in a
    carriage return. *)
Lemma insert_keeps_LF (a b : list string) (content : string) :
  (a ++ b)%list <> [] ->
  countLF content = 0%nat ->
  endsWithCR content = false ->
  endsWithCR (join lf (a ++ b)) = false ->
  onlyLF false (join lf (a ++ b)) = true ->
  onlyLF false (join lf (a ++ content :: b)) = true.
Proof.
  unfold endsWithCR. intros Hne Hc Hce He H.
  pose proof (onlyLF_noLF content false Hc) as Hc'.
  destruct a as [|x a], b as [|y b]; [done| | |].
  - cbn [app] in *. rewrite join_cons by done.
    rewrite onlyLF_app, onlyLF_sep, Hc', Hce, H. reflexivity.
  - rewrite app_nil_r in H, He. rewrite join_app by done.
    change (join lf [content]) with content.
    rewrite onlyLF_app, onlyLF_sep, H, He, Hc'. reflexivity.
  - rewrite join_app in H |- * by done.
    rewrite onlyLF_app, onlyLF_sep in H. apply andb_prop in H as [Ha Hb].
    apply andb_prop in Hb as [Hb1 Hb2].
    rewrite (join_cons lf content) by done.
    rewrite onlyLF_app, onlyLF_sep, Ha, Hb1, onlyLF_app, onlyLF_sep, Hc', Hce, Hb2.
    reflexivity.
Qed.

End SeparatorFacts.


(** ** Facts about the line search *)

Module SearchFacts.
Import Host Lines HostFacts.

Lemma findIndexFrom_none {A} (p : A -> bool) (xs : list A) : forall k,
  Forall (fun x => p x = false) xs -> findIndexFrom p k xs = -1.
Proof.
  induction xs as [|x xs IH]; intros k H; [reflexivity|].
  apply Forall_cons in H as [Hx H]. cbn. rewrite Hx. now apply IH.
Qed.

Lemma findIndexFrom_first {A} (p : A -> bool) (xs : list A) : forall k i x,
  xs !! i = Some x -> p x = true ->
  (forall j y, (j < i)%nat -> xs !! j = Some y -> p y = false) ->
  findIndexFrom p k xs = k + Z.of_nat i.
Proof.
  induction xs as [|x0 xs IH]; intros k i x Hi Hx Hbefore; [done|].
  destruct i as [|i]; cbn in Hi |- *.
  - injection Hi as ->. rewrite Hx. lia.
  - rewrite (Hbefore 0%nat x0) by (reflexivity || lia).
    rewrite (IH (k + 1) i x Hi Hx); [lia|].
    intros j y Hj Hy. apply (Hbefore (S j) y); [lia | exact Hy].
Qed.

Lemma findIndexFrom_range {A} (p : A -> bool) (xs : list A) : forall k,
  0 <= k ->
  (findIndexFrom p k xs = -1 /\ Forall (fun x => p x = false) xs)
  \/ (k <= findIndexFrom p k xs /\ Exists (fun x => p x = true) xs).
Proof.
  induction xs as [|x xs IH]; intros k Hk; [left; split; [reflexivity|constructor]|].
  cbn. destruct (p x) eqn:Hx.
  - right. split; [lia | now constructor].
  - destruct (IH (k + 1)) as [[-> H]|[H1 H2]]; [lia| |].
    + left. split; [reflexivity | now constructor].
    + right. split; [lia | now constructor 2].
Qed.

Lemma arrayLength_nonzero m : Nat.eqb (RegExp.arrayLength m) 0 = false.
Proof. reflexivity. Qed.

(** What [getLineNumber] returns once a line matches on its own. *)
Lemma getLineNumber_single p matcher lines isBefore i l :
  matcherOf p = Ok matcher ->
  lines !! i = Some l -> matches matcher l = true ->
  (forall j l', (j < i)%nat -> lines !! j = Some l' -> matches matcher l' = false) ->
  getLineNumber p lines isBefore
  = Ok (Z.of_nat i + (if isBefore then 0 else 1)).
Proof.
  intros Hm Hi Hl Hbefore. unfold getLineNumber, findIndex. rewrite Hm.
  rewrite (findIndexFrom_first _ lines 0 i l Hi Hl Hbefore).
  destruct (Z.ltb_spec (0 + Z.of_nat i) 0) as [H|_]; [lia|].
  now rewrite Z.add_0_l.
Qed.

(** What it returns in the fallback, when no line matches on its own but the
    joined text does. *)
Lemma getLineNumber_fallback p matcher lines isBefore m :
  matcherOf p = Ok matcher ->
  Forall (fun l => matches matcher l = false) lines ->
  RegExp.exec matcher (join lf lines) = Some m ->
  getLineNumber p lines isBefore
  = Ok (if isBefore
        then Z.of_nat (length (splitEOL
               (substringUpTo (RegExp.index m) (join lf lines)))) - 1
        else Z.of_nat (length (splitEOL (substringTo
               (indexOr0 m + String.length (RegExp.arrayToString m))
               (join lf lines))))).
Proof.
  intros Hm Hnone Hfull. unfold getLineNumber, findIndex. rewrite Hm.
  rewrite findIndexFrom_none by done. cbn [Z.ltb Z.compare].
  rewrite Hfull, arrayLength_nonzero. cbn [negb]. now destruct isBefore.
Qed.

(** And when nothing matches at all. *)
Lemma getLineNumber_nothing p matcher lines isBefore :
  matcherOf p = Ok matcher ->
  Forall (fun l => matches matcher l = false) lines ->
  RegExp.exec matcher (join lf lines) = None ->
  getLineNumber p lines isBefore = Ok (-1).
Proof.
  intros Hm Hnone Hfull. unfold getLineNumber, findIndex. rewrite Hm.
  rewrite findIndexFrom_none by done. cbn [Z.ltb Z.compare].
  now rewrite Hfull.
Qed.

(** [getLineNumber] is negative exactly when both searches fail. *)
Lemma getLineNumber_negative p matcher lines isBefore :
  matcherOf p = Ok matcher ->
  exists n, getLineNumber p lines isBefore = Ok n /\
    (n < 0 <-> Forall (fun l => matches matcher l = false) lines
               /\ RegExp.exec matcher (join lf lines) = None).
Proof.
  intros Hm.
  destruct (findIndexFrom_range (matches matcher) lines 0) as [[Hf Hnone]|[Hge Hsome]];
    [lia| |].
  - destruct (RegExp.exec matcher (join lf lines)) as [m|] eqn:Hfull.
    + eexists. split; [now apply (getLineNumber_fallback p matcher lines isBefore m)|].
      split; [|intros [_ [=]]].
      rewrite !length_splitEOL. destruct isBefore; lia.
    + exists (-1). split; [now apply (getLineNumber_nothing p matcher)|].
      split; [tauto | lia].
  - unfold getLineNumber. rewrite Hm. fold (findIndex (matches matcher) lines) in Hge.
    destruct (Z.ltb_spec (findIndex (matches matcher) lines) 0) as [H|_]; [lia|].
    eexists. split; [reflexivity|]. split.
    + destruct isBefore; lia.
    + intros [Hnone _]. apply Exists_exists in Hsome as (l & Hin & Hl).
      rewrite Forall_forall in Hnone. rewrite (Hnone l Hin) in Hl. discriminate.
Qed.

End SearchFacts.


(** ** Facts about escaped patterns *)

Module PatternFacts.
Import Host Lines HostFacts.

(** The class of [escapeString] is the set of syntax characters. *)
Lemma escaped_syntax c : escaped c = RegExp.SyntaxCharacter c.
Proof. destruct c as [[] [] [] [] [] [] [] []]; reflexivity. Qed.

Lemma escaped_backslash c : Ascii.eqb c "\"%char = true -> escaped c = true.
Proof. intros H%Ascii.eqb_eq. now subst. Qed.

(** An escaped string is read back as the literal text it came from. *)
Lemma parseLiteral_escapeString s :
  RegExp.parseLiteral (escapeString s) = Some s.
Proof.
  induction s as [|c s IH]; [reflexivity|].
  cbn [escapeString]. destruct (escaped c) eqn:Hc.
  - cbn [RegExp.parseLiteral]. rewrite Ascii.eqb_refl.
    rewrite <- escaped_syntax, Hc, IH. reflexivity.
  - cbn [RegExp.parseLiteral].
    destruct (Ascii.eqb c "\"%char) eqn:Hb.
    + apply escaped_backslash in Hb. congruence.
    + rewrite <- escaped_syntax, Hc, IH. reflexivity.
Qed.

Lemma matcherOf_string s : matcherOf (PString s) = Ok (literalRegExp s).
Proof.
  unfold matcherOf, RegExp.construct. now rewrite parseLiteral_escapeString.
Qed.

(** [matcherOf] never throws. *)
Lemma matcherOf_total p : exists matcher, matcherOf p = Ok matcher.
Proof.
  destruct p as [s|re]; [|now exists re].
  exists (literalRegExp s). apply matcherOf_string.
Qed.

Lemma index_empty text : String.index 0 "" text = Some 0%nat.
Proof. now destruct text. Qed.

(** Matching the literal text is containing it. *)
Lemma execLiteral_contains s text :
  is_Some (RegExp.execLiteral s text) <-> contains text s.
Proof.
  unfold RegExp.execLiteral, contains.
  destruct (String.index 0 s text) as [i|] eqn:Hi.
  - split; [intros _ | eauto]. exists i. now apply (String.index_correct1 0).
  - split; [intros [? [=]]|]. intros [i Hs].
    destruct s as [|c s]; [now rewrite index_empty in Hi|].
    exfalso. apply (String.index_correct3 0 i _ _ Hi); [done | lia | exact Hs].
Qed.

Lemma execLiteral_leftmost s text m :
  RegExp.execLiteral s text = Some m ->
  RegExp.matched m = s /\ RegExp.groups m = [] /\
  exists i, RegExp.index m = Some i /\
    String.substring i (String.length s) text = s /\
    forall j, (j < i)%nat -> String.substring j (String.length s) text <> s.
Proof.
  unfold RegExp.execLiteral.
  destruct (String.index 0 s text) as [i|] eqn:Hi; [|done].
  intros [= <-]. cbn. repeat split. exists i. repeat split.
  - now apply (String.index_correct1 0).
  - intros j Hj. apply (String.index_correct2 0 i _ _ Hi); lia.
Qed.

End PatternFacts.


(** ** Facts about [newline] and [inject] *)

Section InjectFacts.
Import Host Lines HostFacts SeparatorFacts.

Context {F : Type}.
Variable EOL : string.
Variable relative : string -> string -> string.

Lemma newline_none s : matchAllEOL s = [] -> newline EOL s = EOL.
Proof. unfold newline. now intros ->. Qed.

Lemma newline_some s :
  matchAllEOL s <> [] ->
  newline EOL s
  = if (countSeparators lf s <? countSeparators crlf s)%nat then crlf else lf.
Proof.
  intros Hne. unfold newline.
  destruct (Nat.eqb_spec (length (matchAllEOL s)) 0) as [H0|_].
  { now apply length_zero_iff_nil in H0. }
  cbv zeta. rewrite (count_separators s) at 1. unfold countSeparators.
  set (c := length (List.filter _ _)). set (l := length (List.filter _ _)).
  destruct (Z.ltb_spec (Z.of_nat (c + l) - Z.of_nat c) (Z.of_nat c)),
           (Nat.ltb_spec l c); (reflexivity || lia).
Qed.

Lemma newline_all_crlf s :
  matchAllEOL s <> [] -> Forall (eq crlf) (matchAllEOL s) -> newline EOL s = crlf.
Proof.
  intros Hne Hall. rewrite newline_some by done. unfold countSeparators.
  rewrite (filter_all crlf) by done.
  rewrite (filter_none lf crlf) by (done || apply not_eq_sym, crlf_neq_lf).
  destruct (matchAllEOL s); [done | reflexivity].
Qed.

Lemma newline_all_lf s :
  matchAllEOL s <> [] -> Forall (eq lf) (matchAllEOL s) -> newline EOL s = lf.
Proof.
  intros Hne Hall. rewrite newline_some by done. unfold countSeparators.
  rewrite (filter_all lf) by done.
  rewrite (filter_none crlf lf) by (done || apply crlf_neq_lf).
  reflexivity.
Qed.

(** [inject] when the file is missing. *)
Lemma inject_absent template (location : @Location F) target ctx w fileName content :
  getCallable target ctx = Ok fileName ->
  getCallable template ctx = Ok content ->
  files w !! fileName = None ->
  inject EOL relative template location target ctx w
  = (Throw ("Cannot inject to '" +:+ fileName +:+ "'. The file doesn't exist."),
     record_call (ExistsSync fileName) w).
Proof.
  intros Ht Hc Hf. unfold inject, bind, lift, existsSync, throw.
  rewrite Ht, Hc. cbn [files record_call]. rewrite Hf.
  rewrite bool_decide_eq_false_2 by (intros [? [=]]). reflexivity.
Qed.

(** [inject] when the resolver throws. *)
Lemma inject_throws template (location : @Location F) target ctx w
    fileName content original e :
  getCallable target ctx = Ok fileName ->
  getCallable template ctx = Ok content ->
  files w !! fileName = Some original ->
  location (split (newline EOL original) original) ctx
           (relative (cwd ctx) fileName) = Throw e ->
  inject EOL relative template location target ctx w
  = (Throw e,
     {| files := files w;
        calls := calls w ++ [ExistsSync fileName; ReadFile fileName];
        notices := notices w |}).
Proof.
  intros Ht Hc Hf Hl. unfold inject, bind, lift, existsSync, readFile.
  rewrite Ht, Hc. cbn [files record_call]. rewrite Hf.
  rewrite bool_decide_eq_true_2 by eauto. cbn [negb files record_call].
  rewrite Hf, Hl.
  unfold record_call. cbn [files calls notices]. now rewrite <- app_assoc.
Qed.

(** [inject] when the resolver answers. *)
Lemma inject_resolves template (location : @Location F) target ctx w
    fileName content original loc :
  getCallable target ctx = Ok fileName ->
  getCallable template ctx = Ok content ->
  files w !! fileName = Some original ->
  location (split (newline EOL original) original) ctx
           (relative (cwd ctx) fileName) = Ok loc ->
  let NL := newline EOL original in
  let lines := split NL original in
  let newContent :=
    join NL (if 0 <=? index loc then splice lines (index loc) content else lines) in
  inject EOL relative template location target ctx w
  = (Ok (addTrace ctx "inject" [("fileName", fileName); ("content", content)]),
     {| files := <[fileName := newContent]> (files w);
        calls := calls w ++ [ExistsSync fileName; ReadFile fileName;
                             WriteFile fileName newContent];
        notices := notices w ++ ["Updated " +:+ relative (cwd ctx) fileName] |}).
Proof.
  intros Ht Hc Hf Hl NL lines newContent.
  unfold inject, bind, lift, existsSync, readFile, writeFile, notice, ret.
  rewrite Ht, Hc. cbn [files record_call]. rewrite Hf.
  rewrite bool_decide_eq_true_2 by eauto. cbn [negb files record_call].
  rewrite Hf, Hl.
  unfold record_call. cbn [files calls notices].
  rewrite <- !app_assoc. reflexivity.
Qed.

End InjectFacts.


(** ** The properties of the injection engine *)

Section Properties.
Import Host Lines HostFacts SeparatorFacts SearchFacts PatternFacts.

Context {F : Type}.
Variable EOL : string.
Variable relative : string -> string -> string.

(** C1: when some line matches the resolved pattern on its own, [before]
    resolves to the position of the first such line, top to bottom, and
    [after] to that position plus one; splicing the content in at these
    positions puts it immediately before, respectively immediately after,
    that line. *)
Theorem before_after_single_line
    (pattern : Callable F Pattern) (p : Pattern) (matcher : RegExp.t)
    (lines : list string) (i : nat) (l : string)
    (ctx : PinionContext F) (fileName content : string) :
  getCallable pattern ctx = Ok p ->
  matcherOf p = Ok matcher ->
  lines !! i = Some l ->
  matches matcher l = true ->
  (forall j l', (j < i)%nat -> lines !! j = Some l' -> matches matcher l' = false) ->
  before pattern lines ctx fileName
    = Ok {| index := Z.of_nat i; pattern := Some p |}
  /\ after pattern lines ctx fileName
    = Ok {| index := Z.of_nat i + 1; pattern := Some p |}
  /\ splice lines (Z.of_nat i) content
    = (take i lines ++ content :: l :: drop (S i) lines)%list
  /\ splice lines (Z.of_nat i + 1) content
    = (take i lines ++ l :: content :: drop (S i) lines)%list.
Proof.
  intros Hp Hm Hi Hl Hfirst. repeat split.
  - unfold before. rewrite Hp.
    rewrite (getLineNumber_single p matcher lines true i l) by done.
    rewrite Z.add_0_r.
    destruct (Z.ltb_spec (Z.of_nat i) 0); [lia | reflexivity].
  - unfold after. rewrite Hp.
    rewrite (getLineNumber_single p matcher lines false i l) by done.
    destruct (Z.ltb_spec (Z.of_nat i + 1) 0); [lia | reflexivity].
  - unfold splice. rewrite Nat2Z.id. now rewrite (drop_S lines l i).
  - unfold splice. replace (Z.to_nat (Z.of_nat i + 1)) with (S i) by lia.
    rewrite (take_S_r lines i l) by done. now rewrite <- app_assoc.
Qed.

(** C4 (amended): when no line matches on its own but the lines joined by
    a line feed do, with a match that carries its start offset [i] (as for
    every string pattern and every regular expression without the global
    flag), [before] resolves to the number of line separators before that
    offset, that is the number of newline-delimited segments that end
    before the match begins; when no line holds a line feed of its own this
    is the position of the line on which the match begins. *)
Theorem before_cross_line
    (pattern : Callable F Pattern) (p : Pattern) (matcher : RegExp.t)
    (lines : list string) (m : RegExp.MatchArray) (i : nat)
    (ctx : PinionContext F) (fileName : string) :
  getCallable pattern ctx = Ok p ->
  matcherOf p = Ok matcher ->
  Forall (fun l => matches matcher l = false) lines ->
  RegExp.exec matcher (join lf lines) = Some m ->
  RegExp.index m = Some i ->
  before pattern lines ctx fileName
    = Ok {| index := Z.of_nat (length (matchAllEOL (substringTo i (join lf lines))));
            pattern := Some p |}
  /\ (Forall (fun l => countLF l = 0%nat) lines ->
      (i <= String.length (join lf lines))%nat ->
      length (matchAllEOL (substringTo i (join lf lines))) = lineAt lines i).
Proof.
  intros Hp Hm Hnone Hfull Hi. split.
  - unfold before. rewrite Hp.
    rewrite (getLineNumber_fallback p matcher lines true m) by done.
    rewrite Hi. cbn [substringUpTo]. rewrite length_splitEOL.
    set (n := length _).
    destruct (Z.ltb_spec (Z.of_nat (S n) - 1) 0); [lia|].
    do 2 f_equal. lia.
  - intros Hplain Hle. rewrite length_matchAllEOL. now apply countLF_lineAt.
Qed.

(** X10: the fallback of [after] for a match that carries its start offset
    and has no capture groups: one more than the number of line separators
    before the end of the match, which is one past the line that holds the
    end of the match when no line holds a line feed of its own. *)
Lemma after_cross_line_without_groups
    (pattern : Callable F Pattern) (p : Pattern) (matcher : RegExp.t)
    (lines : list string) (m : RegExp.MatchArray) (i : nat)
    (ctx : PinionContext F) (fileName : string) :
  getCallable pattern ctx = Ok p ->
  matcherOf p = Ok matcher ->
  Forall (fun l => matches matcher l = false) lines ->
  RegExp.exec matcher (join lf lines) = Some m ->
  RegExp.index m = Some i ->
  RegExp.groups m = [] ->
  let matchEnd := (i + String.length (RegExp.matched m))%nat in
  after pattern lines ctx fileName
    = Ok {| index := Z.of_nat (length (matchAllEOL
                                 (substringTo matchEnd (join lf lines)))) + 1;
            pattern := Some p |}
  /\ (Forall (fun l => countLF l = 0%nat) lines ->
      (matchEnd <= String.length (join lf lines))%nat ->
      length (matchAllEOL (substringTo matchEnd (join lf lines)))
      = lineAt lines matchEnd).
Proof.
  intros Hp Hm Hnone Hfull Hi Hg matchEnd. split.
  - unfold after. rewrite Hp.
    rewrite (getLineNumber_fallback p matcher lines false m) by done.
    unfold indexOr0, RegExp.arrayToString. rewrite Hi, Hg. cbn [default map join].
    fold matchEnd. rewrite length_splitEOL. set (n := length _).
    destruct (Z.ltb_spec (Z.of_nat (S n)) 0); [lia|].
    do 2 f_equal. lia.
  - intros Hplain Hle. rewrite length_matchAllEOL. now apply countLF_lineAt.
Qed.

(** C5: on the lines A, B, C, D, E and the pattern [/(B\nC)/], which
    matches the joined text from offset 2 to offset 5 (on the line C, at
    position 2), [after] resolves to 5, the end of the file, and not to 3:
    the end of the match is computed from the printed match array, which
    repeats the text of the capture group. *)
Theorem after_cross_line_capture_group (ctx : PinionContext F) (fileName : string) :
  let lines := ["A"; "B"; "C"; "D"; "E"] in
  let text := join lf lines in
  Forall (fun l => matches Fixtures.capture_B_LF_C l = false) lines
  /\ RegExp.exec Fixtures.capture_B_LF_C text
     = Some {| RegExp.matched := Fixtures.B_LF_C;
               RegExp.groups := [Some Fixtures.B_LF_C];
               RegExp.index := Some 2%nat |}
  /\ String.substring 2 3 text = Fixtures.B_LF_C
  /\ lineAt lines (2 + 3) = 2%nat
  /\ after (Literal (PRegExp Fixtures.capture_B_LF_C)) lines ctx fileName
     = Ok {| index := 5; pattern := Some (PRegExp Fixtures.capture_B_LF_C) |}.
Proof.
  cbv zeta. split; [repeat constructor|].
  split; [reflexivity|]. split; [reflexivity|]. split; reflexivity.
Qed.

(** C6: once the pattern is resolved, [before] throws exactly when neither
    a single line nor the joined text matches, and so does [after]; the
    message then is "Could not find line '<pattern>' in file <fileName> to
    inject content before" (respectively "after"), and when [inject] runs
    the resolver, <fileName> is the target path relative to the working
    directory. *)
Theorem not_found_error
    (pattern : Callable F Pattern) (p : Pattern) (matcher : RegExp.t)
    (lines : list string) (ctx : PinionContext F) (fileName : string) :
  getCallable pattern ctx = Ok p ->
  matcherOf p = Ok matcher ->
  let nowhere :=
    Forall (fun l => matches matcher l = false) lines
    /\ RegExp.exec matcher (join lf lines) = None in
  (isThrow (before pattern lines ctx fileName) = true <-> nowhere)
  /\ (isThrow (after pattern lines ctx fileName) = true <-> nowhere)
  /\ (nowhere ->
      before pattern lines ctx fileName
        = Throw ("Could not find line '" +:+ showPattern p +:+ "' in file "
                 +:+ fileName +:+ " to inject content before")
      /\ after pattern lines ctx fileName
        = Throw ("Could not find line '" +:+ showPattern p +:+ "' in file "
                 +:+ fileName +:+ " to inject content after"))
  /\ (forall template target w path content original,
      getCallable target ctx = Ok path ->
      getCallable template ctx = Ok content ->
      files w !! path = Some original ->
      lines = split (newline EOL original) original ->
      fileName = relative (cwd ctx) path ->
      nowhere ->
      fst (inject EOL relative template (before pattern) target ctx w)
        = Throw ("Could not find line '" +:+ showPattern p +:+ "' in file "
                 +:+ relative (cwd ctx) path +:+ " to inject content before")
      /\ fst (inject EOL relative template (after pattern) target ctx w)
        = Throw ("Could not find line '" +:+ showPattern p +:+ "' in file "
                 +:+ relative (cwd ctx) path +:+ " to inject content after")).
Proof.
  intros Hp Hm nowhere.
  assert (Hb : forall isBefore, exists n,
             getLineNumber p lines isBefore = Ok n /\ (n < 0 <-> nowhere))
    by (intros b; now apply getLineNumber_negative).
  assert (Hthrow : nowhere ->
      before pattern lines ctx fileName
        = Throw ("Could not find line '" +:+ showPattern p +:+ "' in file "
                 +:+ fileName +:+ " to inject content before")
      /\ after pattern lines ctx fileName
        = Throw ("Could not find line '" +:+ showPattern p +:+ "' in file "
                 +:+ fileName +:+ " to inject content after")).
  { intros [Hnone Hfull]. unfold before, after. rewrite Hp.
    rewrite !(getLineNumber_nothing p matcher lines) by done. now cbn. }
  split; [|split; [|split]].
  - destruct (Hb true) as (n & Hn & Hneg). unfold before. rewrite Hp, Hn.
    destruct (Z.ltb_spec n 0) as [H|H]; cbn [isThrow].
    + split; [intros _; now apply Hneg | reflexivity].
    + split; [discriminate | intros H'%Hneg; lia].
  - destruct (Hb false) as (n & Hn & Hneg). unfold after. rewrite Hp, Hn.
    destruct (Z.ltb_spec n 0) as [H|H]; cbn [isThrow].
    + split; [intros _; now apply Hneg | reflexivity].
    + split; [discriminate | intros H'%Hneg; lia].
  - exact Hthrow.
  - intros template target w path content original Ht Hc Hf -> -> Hnowhere.
    destruct (Hthrow Hnowhere) as [Hbefore Hafter].
    rewrite (inject_throws EOL relative template (before pattern) target ctx w
               path content original _ Ht Hc Hf Hbefore).
    rewrite (inject_throws EOL relative template (after pattern) target ctx w
               path content original _ Ht Hc Hf Hafter).
    split; reflexivity.
Qed.

(** C7: when the resolved target is not a file that exists, [inject] throws
    "Cannot inject to '<fileName>'. The file doesn't exist." after the one
    call to [existsSync]: nothing is read or written (and when resolving the
    content throws first, no call is made at all). *)
Theorem inject_missing_file
    (template : Callable F string) (location : @Location F)
    (target : Callable F string) (ctx : PinionContext F) (w : World)
    (fileName : string) :
  getCallable target ctx = Ok fileName ->
  files w !! fileName = None ->
  match getCallable template ctx with
  | Ok _ =>
      inject EOL relative template location target ctx w
      = (Throw ("Cannot inject to '" +:+ fileName +:+ "'. The file doesn't exist."),
         {| files := files w;
            calls := calls w ++ [ExistsSync fileName];
            notices := notices w |})
  | Throw e => inject EOL relative template location target ctx w = (Throw e, w)
  end.
Proof.
  intros Ht Hf. destruct (getCallable template ctx) as [content|e] eqn:Hc.
  - now rewrite (inject_absent EOL relative template location target ctx w
                   fileName content).
  - unfold inject, bind, lift. now rewrite Ht, Hc.
Qed.

(** C8: [prepend] resolves to 0 and [append] to the number of lines,
    whatever the lines, the context and the file name are; neither throws
    and neither index is negative. *)
Theorem prepend_append_index
    (lines : list string) (ctx : PinionContext F) (fileName : string) :
  prepend lines ctx fileName = Ok {| index := 0; pattern := None |}
  /\ append lines ctx fileName
     = Ok {| index := Z.of_nat (length lines); pattern := None |}
  /\ 0 <= Z.of_nat (length lines).
Proof. repeat split. lia. Qed.

(** C9: a string pattern is escaped so that it reads back as its own
    literal text: the matcher built for it matches a text exactly when the
    text contains the string, and reports the leftmost place; a pattern
    that is a regular expression already is the matcher, unchanged. *)
Theorem escapeString_matches_literally (s : string) :
  RegExp.parseLiteral (escapeString s) = Some s
  /\ matcherOf (PString s) = Ok (literalRegExp s)
  /\ (forall text, matches (literalRegExp s) text = true <-> contains text s)
  /\ (forall text m, RegExp.exec (literalRegExp s) text = Some m ->
      RegExp.matched m = s /\
      exists i, RegExp.index m = Some i /\
        String.substring i (String.length s) text = s /\
        forall j, (j < i)%nat -> String.substring j (String.length s) text <> s)
  /\ (forall re, matcherOf (PRegExp re) = Ok re).
Proof.
  split; [apply parseLiteral_escapeString|].
  split; [apply matcherOf_string|]. split; [|split].
  - intros text. rewrite <- execLiteral_contains. unfold matches. cbn.
    destruct (RegExp.execLiteral s text); split; eauto; try discriminate.
    intros [? [=]].
  - intros text m Hm. apply execLiteral_leftmost in Hm as (H1 & _ & H2). auto.
  - reflexivity.
Qed.

(** C10: splitting a text on the separator [newline] detects for it and
    joining the pieces with the same separator gives the text back; so when
    the resolver answers with a negative index, [inject] writes the file
    with its original content, logs the notice and returns the context with
    the trace entry of the action, the file name and the content appended. *)
Theorem split_join_identity_and_negative_index
    (template : Callable F string) (location : @Location F)
    (target : Callable F string) (ctx : PinionContext F) (w : World)
    (fileName content original : string) (loc : LocationResult) :
  getCallable target ctx = Ok fileName ->
  getCallable template ctx = Ok content ->
  files w !! fileName = Some original ->
  location (split (newline EOL original) original) ctx
           (relative (cwd ctx) fileName) = Ok loc ->
  index loc < 0 ->
  (forall s, join (newline EOL s) (split (newline EOL s) s) = s)
  /\ inject EOL relative template location target ctx w
     = (Ok {| cwd := cwd ctx;
              trace := trace ctx ++
                [{| action := "inject";
                    parameters := [("fileName", fileName); ("content", content)] |}];
              fields := fields ctx |},
        {| files := <[fileName := original]> (files w);
           calls := calls w ++ [ExistsSync fileName; ReadFile fileName;
                                WriteFile fileName original];
           notices := notices w ++ ["Updated " +:+ relative (cwd ctx) fileName] |})
  /\ <[fileName := original]> (files w) = files w.
Proof.
  intros Ht Hc Hf Hl Hneg. split; [intros s; apply join_split|]. split.
  - rewrite (inject_resolves EOL relative template location target ctx w
               fileName content original loc Ht Hc Hf Hl).
    destruct (Z.leb_spec 0 (index loc)); [lia|].
    now rewrite join_split.
  - now apply insert_id.
Qed.

(** C3 (amended): [inject] fails after reading the file when the resolver
    throws, with the resolver's error and without writing the file, logging
    or recording a trace entry; when the resolver answers with a negative
    index instead, [inject] does not fail: it inserts nothing, writes the
    lines of the file joined as they were split, logs the notice and
    records the trace entry. *)
Theorem inject_fails_when_resolver_throws
    (template : Callable F string) (location : @Location F)
    (target : Callable F string) (ctx : PinionContext F) (w : World)
    (fileName content original : string) :
  getCallable target ctx = Ok fileName ->
  getCallable template ctx = Ok content ->
  files w !! fileName = Some original ->
  let NL := newline EOL original in
  let lines := split NL original in
  match location lines ctx (relative (cwd ctx) fileName) with
  | Throw e =>
      inject EOL relative template location target ctx w
      = (Throw e,
         {| files := files w;
            calls := calls w ++ [ExistsSync fileName; ReadFile fileName];
            notices := notices w |})
  | Ok loc =>
      index loc < 0 ->
      inject EOL relative template location target ctx w
      = (Ok {| cwd := cwd ctx;
               trace := trace ctx ++
                 [{| action := "inject";
                     parameters := [("fileName", fileName); ("content", content)] |}];
               fields := fields ctx |},
         {| files := <[fileName := join NL lines]> (files w);
            calls := calls w ++ [ExistsSync fileName; ReadFile fileName;
                                 WriteFile fileName (join NL lines)];
            notices := notices w ++ ["Updated " +:+ relative (cwd ctx) fileName] |})
  end.
Proof.
  intros Ht Hc Hf NL lines.
  destruct (location lines ctx (relative (cwd ctx) fileName)) as [loc|e] eqn:Hl.
  - intros Hneg.
    rewrite (inject_resolves EOL relative template location target ctx w
               fileName content original loc Ht Hc Hf Hl).
    destruct (Z.leb_spec 0 (index loc)); [lia | reflexivity].
  - now apply inject_throws with (content := content) (original := original).
Qed.

(** C2 (amended): [newline] answers the platform separator for a text
    without separators, CRLF exactly when the text has more CRLF than LF
    separators, and LF otherwise.  [inject] writes the pieces of the text
    between occurrences of that separator, with the content as one more
    piece, joined by that separator: the separators around the content are
    the detected one and the pieces are kept as they are, with any
    separator of the other kind inside them.  For a text whose separators
    are all CRLF and a content without line feed, all separators written
    are CRLF; for a text whose separators are all LF, when neither the text
    nor the content ends in a carriage return and the content has no line
    feed, all separators written are LF. *)
Theorem newline_detection_and_rewrite
    (template : Callable F string) (location : @Location F)
    (target : Callable F string) (ctx : PinionContext F) (w : World)
    (fileName content original : string) (loc : LocationResult) :
  getCallable target ctx = Ok fileName ->
  getCallable template ctx = Ok content ->
  files w !! fileName = Some original ->
  let NL := newline EOL original in
  let lines := split NL original in
  location lines ctx (relative (cwd ctx) fileName) = Ok loc ->
  0 <= index loc ->
  let n := Z.to_nat (index loc) in
  let written := join NL (take n lines ++ content :: drop n lines) in
  (forall s,
     (matchAllEOL s = [] -> newline EOL s = EOL)
     /\ (matchAllEOL s <> [] ->
         (newline EOL s = crlf
          <-> (countSeparators lf s < countSeparators crlf s)%nat)
         /\ (newline EOL s = lf
          <-> (countSeparators crlf s <= countSeparators lf s)%nat)))
  /\ inject EOL relative template location target ctx w
     = (Ok (addTrace ctx "inject" [("fileName", fileName); ("content", content)]),
        {| files := <[fileName := written]> (files w);
           calls := calls w ++ [ExistsSync fileName; ReadFile fileName;
                                WriteFile fileName written];
           notices := notices w ++ ["Updated " +:+ relative (cwd ctx) fileName] |})
  /\ join NL lines = original
  /\ (matchAllEOL original <> [] ->
      Forall (eq crlf) (matchAllEOL original) ->
      countLF content = 0%nat ->
      Forall (eq crlf) (matchAllEOL written))
  /\ (matchAllEOL original <> [] ->
      Forall (eq lf) (matchAllEOL original) ->
      countLF content = 0%nat ->
      endsWithCR content = false ->
      endsWithCR original = false ->
      Forall (eq lf) (matchAllEOL written)).
Proof.
  intros Ht Hc Hf NL lines Hl Hpos n written.
  assert (Hjoin : join NL lines = original) by apply join_split.
  split; [|split; [|split; [exact Hjoin|split]]].
  - intros s. split; [apply newline_none|]. intros Hne.
    rewrite (newline_some EOL s Hne).
    destruct (Nat.ltb_spec (countSeparators lf s) (countSeparators crlf s)).
    + split; split; auto; try lia. intros E. now apply crlf_neq_lf in E.
    + split; split; auto; try lia. intros E. symmetry in E. now apply crlf_neq_lf in E.
  - rewrite (inject_resolves EOL relative template location target ctx w
               fileName content original loc Ht Hc Hf Hl).
    destruct (Z.leb_spec 0 (index loc)); [reflexivity | lia].
  - intros Hne Hall Hcontent.
    assert (HNL : NL = crlf) by now apply newline_all_crlf.
    assert (Hlines : lines <> []) by (apply split_nonempty; now rewrite HNL).
    apply (proj1 (allCRLF_spec _)). subst written. rewrite HNL in Hjoin |- *.
    apply insert_keeps_CRLF; [now rewrite take_drop | done |].
    rewrite take_drop, Hjoin. now apply (proj1 (allCRLF_spec _)).
  - intros Hne Hall Hcontent Hcend Hoend.
    assert (HNL : NL = lf) by now apply newline_all_lf.
    assert (Hlines : lines <> []) by (apply split_nonempty; now rewrite HNL).
    apply (proj1 (allLF_spec _)). subst written. rewrite HNL in Hjoin |- *.
    apply insert_keeps_LF; [now rewrite take_drop | done | done | |].
    + now rewrite take_drop, Hjoin.
    + rewrite take_drop, Hjoin. now apply (proj1 (allLF_spec _)).
Qed.

End Properties.


(** ** Worked examples *)

Module Examples.
Import Host Lines Fixtures.

(** C1 on the lines A, B, C with the pattern "B": [before] gives 1 and the
    content X goes between A and B; [after] gives 2 and X goes between B
    and C. *)
Lemma before_after_single_line_witness :
  before (Literal (PString "B")) ABC ctx0 "src/index.ts"
    = Ok {| index := 1; pattern := Some (PString "B") |}
  /\ after (Literal (PString "B")) ABC ctx0 "src/index.ts"
    = Ok {| index := 2; pattern := Some (PString "B") |}
  /\ splice ABC 1 "X" = ["A"; "X"; "B"; "C"]
  /\ splice ABC 2 "X" = ["A"; "B"; "X"; "C"].
Proof.
  apply (before_after_single_line (Literal (PString "B")) (PString "B")
           (literalRegExp "B") ABC 1 "B" ctx0 "src/index.ts" "X");
    try reflexivity.
  intros j l' Hj Hl'. destruct j as [|j]; [|lia].
  injection Hl' as <-. reflexivity.
Defined.

(** C4 on the lines A, B, C with a pattern that spans B and C. *)
Lemma before_cross_line_witness :
  before (Literal (PString B_LF_C)) ABC ctx0 "src/index.ts"
    = Ok {| index := 1; pattern := Some (PString B_LF_C) |}
  /\ lineAt ABC 2 = 1%nat.
Proof.
  destruct (before_cross_line (Literal (PString B_LF_C)) (PString B_LF_C)
              (literalRegExp B_LF_C) ABC
              {| RegExp.matched := B_LF_C; RegExp.groups := []; RegExp.index := Some 2%nat |}
              2 ctx0 "src/index.ts") as [Hbefore Hline];
    try reflexivity.
  - repeat constructor.
  - split; [exact Hbefore | reflexivity].
Defined.

(** C4 as stated fails.  With the global flag the match has no offset and
    [before] resolves to the last line: on A, B, C, D, E with [/B\nC/g] the
    match begins on line 1 and [before] answers 4.  And when a line holds a
    line feed itself, segments are not lines: on the lines ["A\nB"], C, D
    with a pattern that spans C and D the match begins on line 1 and
    [before] answers 2. *)
Lemma before_cross_line_counterexample :
  Forall (fun l => matches global_B_LF_C l = false) ABCDE
  /\ RegExp.exec global_B_LF_C (join lf ABCDE)
     = Some {| RegExp.matched := B_LF_C; RegExp.groups := [];
               RegExp.index := None |}
  /\ String.index 0 B_LF_C (join lf ABCDE) = Some 2%nat
  /\ lineAt ABCDE 2 = 1%nat
  /\ before (Literal (PRegExp global_B_LF_C)) ABCDE ctx0 "src/index.ts"
     = Ok {| index := 4; pattern := Some (PRegExp global_B_LF_C) |}
  /\ Forall (fun l => matches (literalRegExp C_LF_D) l = false) mixedLines
  /\ String.index 0 C_LF_D (join lf mixedLines) = Some 4%nat
  /\ lineAt mixedLines 4 = 1%nat
  /\ before (Literal (PString C_LF_D)) mixedLines ctx0 "src/index.ts"
     = Ok {| index := 2; pattern := Some (PString C_LF_D) |}.
Proof.
  split; [repeat constructor|]. split; [reflexivity|]. split; [reflexivity|].
  split; [reflexivity|]. split; [reflexivity|]. split; [repeat constructor|].
  repeat split.
Qed.

(** C6 on the lines A, B, C with the pattern "ZZZ". *)
Lemma not_found_error_witness :
  before (Literal (PString "ZZZ")) ABC ctx0 "src/index.ts"
    = Throw "Could not find line 'ZZZ' in file src/index.ts to inject content before"
  /\ after (Literal (PString "ZZZ")) ABC ctx0 "src/index.ts"
    = Throw "Could not find line 'ZZZ' in file src/index.ts to inject content after".
Proof.
  apply (not_found_error lf relativeInside (Literal (PString "ZZZ")) (PString "ZZZ")
           (literalRegExp "ZZZ") ABC ctx0 "src/index.ts" eq_refl eq_refl).
  split; [repeat constructor | reflexivity].
Defined.

(** C7 on a world without the target. *)
Lemma inject_missing_file_witness :
  inject lf relativeInside (Literal "X") prepend (Literal "/app/missing.ts") ctx0
         (world unixFile)
  = (Throw "Cannot inject to '/app/missing.ts'. The file doesn't exist.",
     {| files := files (world unixFile);
        calls := [ExistsSync "/app/missing.ts"];
        notices := [] |}).
Proof.
  apply (inject_missing_file lf relativeInside (Literal "X") prepend
           (Literal "/app/missing.ts") ctx0 (world unixFile) "/app/missing.ts").
  - reflexivity.
  - vm_compute. reflexivity.
Defined.

(** C9 on the pattern "a.b(c)". *)
Lemma escapeString_matches_literally_witness :
  escapeString "a.b(c)" = "a\.b\(c\)"
  /\ matches (literalRegExp "a.b(c)") "call a.b(c) now" = true
  /\ matches (literalRegExp "a.b(c)") "call aXb(c) now" = false.
Proof.
  split; [reflexivity|]. split; [|reflexivity].
  apply (escapeString_matches_literally "a.b(c)").
  exists 5%nat. reflexivity.
Defined.

(** C10 and C3 with a resolver that answers -1. *)
Lemma split_join_identity_and_negative_index_witness :
  inject lf relativeInside (Literal "X") notFound (Literal target0) ctx0 (world unixFile)
  = (Ok {| cwd := "/app";
           trace := [{| action := "inject";
                        parameters := [("fileName", target0); ("content", "X")] |}];
           fields := tt |},
     {| files := <[target0 := unixFile]> (files (world unixFile));
        calls := [ExistsSync target0; ReadFile target0; WriteFile target0 unixFile];
        notices := ["Updated src/index.ts"] |}).
Proof.
  apply (split_join_identity_and_negative_index lf relativeInside (Literal "X") notFound
           (Literal target0) ctx0 (world unixFile) target0 "X" unixFile
           {| index := -1; pattern := None |}).
  - reflexivity.
  - reflexivity.
  - vm_compute. reflexivity.
  - reflexivity.
  - cbn. lia.
Defined.

Lemma inject_fails_when_resolver_throws_witness :
  inject lf relativeInside (Literal "X") (before (Literal (PString "ZZZ")))
         (Literal target0) ctx0 (world unixFile)
  = (Throw "Could not find line 'ZZZ' in file src/index.ts to inject content before",
     {| files := files (world unixFile);
        calls := [ExistsSync target0; ReadFile target0];
        notices := [] |}).
Proof.
  apply (inject_fails_when_resolver_throws lf relativeInside (Literal "X")
           (before (Literal (PString "ZZZ"))) (Literal target0) ctx0
           (world unixFile) target0 "X" unixFile).
  - reflexivity.
  - reflexivity.
  - vm_compute. reflexivity.
Defined.

(** C3 as stated fails: the resolver answers -1 and [inject] succeeds,
    writes the file and records a trace entry. *)
Lemma negative_index_does_not_fail :
  let r := inject lf relativeInside (Literal "X") notFound (Literal target0)
                  ctx0 (world unixFile) in
  notFound (split lf unixFile) ctx0 "src/index.ts"
    = Ok {| index := -1; pattern := None |}
  /\ isThrow (fst r) = false
  /\ calls (snd r) = [ExistsSync target0; ReadFile target0; WriteFile target0 unixFile]
  /\ fst r = Ok {| cwd := "/app";
                   trace := [{| action := "inject";
                                parameters := [("fileName", target0); ("content", "X")] |}];
                   fields := tt |}.
Proof. cbv zeta. repeat split; vm_compute; reflexivity. Qed.

(** C2 as stated fails: a file with two CRLF separators and one LF separator
    is detected as CRLF, and after [inject] the written content still holds
    the LF separator. *)
Lemma mixed_file_keeps_line_feed :
  let r := inject lf relativeInside (Literal "X") prepend (Literal target0)
                  ctx0 (world mixedFile) in
  countSeparators crlf mixedFile = 2%nat
  /\ countSeparators lf mixedFile = 1%nat
  /\ newline lf mixedFile = crlf
  /\ isThrow (fst r) = false
  /\ files (snd r) !! target0 = Some ("X" +:+ crlf +:+ mixedFile)
  /\ matchAllEOL ("X" +:+ crlf +:+ mixedFile) = [crlf; crlf; crlf; lf]
  /\ ~ Forall (eq crlf) (matchAllEOL ("X" +:+ crlf +:+ mixedFile)).
Proof.
  cbv zeta.
  assert (E : matchAllEOL ("X" +:+ crlf +:+ mixedFile) = [crlf; crlf; crlf; lf])
    by (vm_compute; reflexivity).
  repeat split; try (vm_compute; reflexivity).
  rewrite E. intros H. do 3 (apply Forall_cons in H as [_ H]).
  apply Forall_cons in H as [H _]. discriminate H.
Qed.

(** C2 (amended) on a file with CRLF separators only. *)
Lemma newline_detection_and_rewrite_witness :
  fst (inject lf relativeInside (Literal "X") append (Literal target0) ctx0 (world dosFile))
    = Ok (addTrace ctx0 "inject" [("fileName", target0); ("content", "X")])
  /\ Forall (eq crlf) (matchAllEOL (dosFile +:+ crlf +:+ "X")).
Proof.
  destruct (newline_detection_and_rewrite lf relativeInside (Literal "X") append
              (Literal target0) ctx0 (world dosFile) target0 "X" dosFile
              {| index := 3; pattern := None |})
    as (_ & Hrun & _ & Hcrlf & _).
  - reflexivity.
  - reflexivity.
  - vm_compute. reflexivity.
  - reflexivity.
  - cbn. lia.
  - split.
    + now rewrite Hrun.
    + apply Hcrlf; [discriminate | repeat constructor | reflexivity].
Defined.

End Examples.


(** * Further properties of the injection engine *)

(** ** Counting separators *)

Module CountingFacts.
Import Host Lines Counting HostFacts SeparatorFacts.

Lemma countSeparators_cons_lf c s :
  isLF c = true ->
  countSeparators crlf (String c s) = countSeparators crlf s
  /\ countSeparators lf (String c s) = S (countSeparators lf s).
Proof.
  intros Hc. unfold countSeparators. cbn [matchAllEOL]. rewrite Hc. now cbn.
Qed.

Lemma countSeparators_cons_other kind c s :
  isLF c = false -> isCR c = false ->
  countSeparators kind (String c s) = countSeparators kind s.
Proof.
  intros Hc Hr. unfold countSeparators. cbn [matchAllEOL]. now rewrite Hc, Hr.
Qed.

Lemma countSeparators_CR_LF c s :
  isLF c = true ->
  countSeparators crlf (String CR (String c s)) = S (countSeparators crlf s)
  /\ countSeparators lf (String CR (String c s)) = countSeparators lf s.
Proof.
  intros Hc. unfold countSeparators. rewrite matchAllEOL_CR, Hc. now cbn.
Qed.

Lemma countSeparators_CR_other kind c s :
  isLF c = false ->
  countSeparators kind (String CR (String c s)) = countSeparators kind (String c s).
Proof.
  intros Hc. unfold countSeparators. now rewrite matchAllEOL_CR, Hc.
Qed.

(** Looking back counts the same separators as looking ahead. *)
Lemma behind_spec s :
  (countSeparators crlf s = crlfBehind false s
   /\ countSeparators lf s = lfBehind false s)
  /\ (countSeparators crlf (String CR s) = crlfBehind true s
      /\ countSeparators lf (String CR s) = lfBehind true s).
Proof.
  induction s as [|c s [[IH1 IH2] [IH3 IH4]]]; [now cbn|].
  assert (H1 : countSeparators crlf (String c s) = crlfBehind false (String c s)
               /\ countSeparators lf (String c s) = lfBehind false (String c s)).
  { cbn [crlfBehind lfBehind]. destruct (isLF c) eqn:Hc.
    - destruct (countSeparators_cons_lf c s Hc) as [-> ->]. now rewrite IH1, IH2.
    - destruct (isCR c) eqn:Hr.
      + apply Ascii.eqb_eq in Hr. subst c. now split.
      + rewrite !countSeparators_cons_other by done. now split. }
  split; [exact H1|].
  cbn [crlfBehind lfBehind]. destruct (isLF c) eqn:Hc.
  - destruct (countSeparators_CR_LF c s Hc) as [-> ->]. now rewrite IH1, IH2.
  - rewrite !countSeparators_CR_other by done.
    destruct H1 as [-> ->]. cbn [crlfBehind lfBehind]. now rewrite Hc.
Qed.

Lemma crlfBehind_app a : forall p b,
  crlfBehind p (a +:+ b) = (crlfBehind p a + crlfBehind (lastIsCR p a) b)%nat.
Proof.
  induction a as [|c a IH]; intros p b; [reflexivity|].
  simpl String.append. cbn [crlfBehind lastIsCR].
  destruct (isLF c) eqn:Hc.
  - rewrite IH, (isLF_not_isCR _ Hc). lia.
  - apply IH.
Qed.

Lemma lfBehind_app a : forall p b,
  lfBehind p (a +:+ b) = (lfBehind p a + lfBehind (lastIsCR p a) b)%nat.
Proof.
  induction a as [|c a IH]; intros p b; [reflexivity|].
  simpl String.append. cbn [lfBehind lastIsCR].
  destruct (isLF c) eqn:Hc.
  - rewrite IH, (isLF_not_isCR _ Hc). lia.
  - apply IH.
Qed.

Lemma behind_noLF s : forall p,
  countLF s = 0%nat -> crlfBehind p s = 0%nat /\ lfBehind p s = 0%nat.
Proof.
  induction s as [|c s IH]; intros p H; [now split|].
  cbn [countLF crlfBehind lfBehind] in *. destruct (isLF c); [lia | now apply IH].
Qed.

Lemma behind_crlf p s :
  crlfBehind p (crlf +:+ s) = S (crlfBehind false s)
  /\ lfBehind p (crlf +:+ s) = lfBehind false s.
Proof. now split. Qed.

Lemma behind_lf s :
  crlfBehind false (lf +:+ s) = crlfBehind false s
  /\ lfBehind false (lf +:+ s) = S (lfBehind false s).
Proof. now split. Qed.

End CountingFacts.

Module InsertCounts.
Import Host Lines Counting HostFacts SeparatorFacts CountingFacts.

Lemma behind_lf_any p s :
  crlfBehind p (lf +:+ s) = ((if p then 1 else 0) + crlfBehind false s)%nat
  /\ lfBehind p (lf +:+ s) = ((if p then 0 else 1) + lfBehind false s)%nat.
Proof. now split. Qed.

(** One more piece between CRLF separators is one more CRLF separator. *)
Lemma insert_counts_crlf (a b : list string) (content : string) :
  (a ++ b)%list <> [] ->
  countLF content = 0%nat ->
  crlfBehind false (join crlf (a ++ content :: b))
    = S (crlfBehind false (join crlf (a ++ b)))
  /\ lfBehind false (join crlf (a ++ content :: b))
    = lfBehind false (join crlf (a ++ b)).
Proof.
  intros Hne Hc.
  assert (Hc0 : forall p, crlfBehind p content = 0%nat /\ lfBehind p content = 0%nat)
    by (intros p; now apply behind_noLF).
  destruct a as [|x a], b as [|y b]; [done| | |].
  - cbn [app]. rewrite join_cons by done.
    rewrite (crlfBehind_app content), (lfBehind_app content).
    destruct (Hc0 false) as [-> ->].
    destruct (behind_crlf (lastIsCR false content) (join crlf (y :: b))) as [-> ->].
    split; reflexivity.
  - rewrite app_nil_r. rewrite join_app by done.
    change (join crlf [content]) with content.
    rewrite (crlfBehind_app (join crlf (x :: a))), (lfBehind_app (join crlf (x :: a))).
    destruct (behind_crlf (lastIsCR false (join crlf (x :: a))) content) as [-> ->].
    destruct (Hc0 false) as [-> ->]. split; lia.
  - rewrite !join_app by done. rewrite (join_cons crlf content) by done.
    rewrite !(crlfBehind_app (join crlf (x :: a))), !(lfBehind_app (join crlf (x :: a))).
    set (p := lastIsCR false (join crlf (x :: a))).
    destruct (behind_crlf p (content +:+ crlf +:+ join crlf (y :: b))) as [-> ->].
    destruct (behind_crlf p (join crlf (y :: b))) as [-> ->].
    rewrite (crlfBehind_app content), (lfBehind_app content).
    destruct (Hc0 false) as [-> ->].
    destruct (behind_crlf (lastIsCR false content) (join crlf (y :: b))) as [-> ->].
    split; lia.
Qed.

(** One more piece between LF separators is one more LF separator, when
    neither the new piece nor the text ends in a carriage return. *)
Lemma insert_counts_lf (a b : list string) (content : string) :
  (a ++ b)%list <> [] ->
  countLF content = 0%nat ->
  endsWithCR content = false ->
  endsWithCR (join lf (a ++ b)) = false ->
  crlfBehind false (join lf (a ++ content :: b))
    = crlfBehind false (join lf (a ++ b))
  /\ lfBehind false (join lf (a ++ content :: b))
    = S (lfBehind false (join lf (a ++ b))).
Proof.
  unfold endsWithCR. intros Hne Hc Hce He.
  assert (Hc0 : forall p, crlfBehind p content = 0%nat /\ lfBehind p content = 0%nat)
    by (intros p; now apply behind_noLF).
  destruct a as [|x a], b as [|y b]; [done| | |].
  - cbn [app]. rewrite join_cons by done.
    rewrite (crlfBehind_app content), (lfBehind_app content), Hce.
    destruct (Hc0 false) as [-> ->].
    destruct (behind_lf (join lf (y :: b))) as [-> ->]. split; reflexivity.
  - rewrite app_nil_r in He |- *. rewrite join_app by done.
    change (join lf [content]) with content.
    rewrite (crlfBehind_app (join lf (x :: a))), (lfBehind_app (join lf (x :: a))), He.
    destruct (behind_lf content) as [-> ->].
    destruct (Hc0 false) as [-> ->]. split; lia.
  - rewrite !join_app by done. rewrite (join_cons lf content) by done.
    rewrite !(crlfBehind_app (join lf (x :: a))), !(lfBehind_app (join lf (x :: a))).
    set (p := lastIsCR false (join lf (x :: a))).
    destruct (behind_lf_any p (content +:+ lf +:+ join lf (y :: b))) as [-> ->].
    destruct (behind_lf_any p (join lf (y :: b))) as [-> ->].
    rewrite (crlfBehind_app content), (lfBehind_app content), Hce.
    destruct (Hc0 false) as [-> ->].
    destruct (behind_lf (join lf (y :: b))) as [-> ->].
    split; lia.
Qed.

End InsertCounts.

Section Convention.
Import Host Lines Counting HostFacts SeparatorFacts CountingFacts InsertCounts.
Variable EOL : string.

(** [newline] read off the two counts. *)
Lemma newline_by_counts s :
  newline EOL s
  = if (crlfBehind false s + lfBehind false s =? 0)%nat then EOL
    else if (lfBehind false s <? crlfBehind false s)%nat then crlf else lf.
Proof.
  destruct (behind_spec s) as [[Hc Hl] _]. rewrite <- Hc, <- Hl.
  rewrite <- count_separators.
  destruct (matchAllEOL s) as [|nl nls] eqn:E.
  - now rewrite newline_none.
  - cbn [length Nat.eqb]. rewrite newline_some by (rewrite E; done). reflexivity.
Qed.

Lemma newline_cases s :
  EOL = lf \/ EOL = crlf -> newline EOL s = lf \/ newline EOL s = crlf.
Proof.
  intros HE. rewrite newline_by_counts.
  destruct (_ =? _)%nat; [exact HE|]. destruct (_ <? _)%nat; auto.
Qed.

(** The convention detected for the lines with one more piece is the one
    detected for the lines. *)
Lemma newline_insert (original content : string) (n : nat) :
  EOL = lf \/ EOL = crlf ->
  countLF content = 0%nat ->
  endsWithCR content = false ->
  endsWithCR original = false ->
  let NL := newline EOL original in
  let lines := split NL original in
  newline EOL (join NL (take n lines ++ content :: drop n lines)) = NL.
Proof.
  intros HE Hc Hce Hoe NL lines.
  assert (Hjoin : join NL (take n lines ++ drop n lines) = original)
    by (rewrite take_drop; apply join_split).
  pose proof (newline_by_counts original) as Hdef. fold NL in Hdef.
  destruct (newline_cases original HE) as [HNL|HNL]; fold NL in HNL.
  - assert (Hne : (take n lines ++ drop n lines)%list <> []).
    { rewrite take_drop. apply split_nonempty. now rewrite HNL. }
    rewrite HNL in Hjoin |- *.
    destruct (insert_counts_lf (take n lines) (drop n lines) content Hne Hc Hce)
      as [Hcr Hlf]; [now rewrite Hjoin|].
    rewrite Hjoin in Hcr, Hlf. rewrite newline_by_counts, Hcr, Hlf.
    rewrite HNL in Hdef.
    destruct (Nat.eqb_spec (crlfBehind false original + S (lfBehind false original)) 0);
      [lia|].
    destruct (Nat.ltb_spec (S (lfBehind false original)) (crlfBehind false original));
      [|reflexivity].
    destruct (Nat.eqb_spec (crlfBehind false original + lfBehind false original) 0);
      [lia|].
    destruct (Nat.ltb_spec (lfBehind false original) (crlfBehind false original));
      [symmetry; exact Hdef | lia].
  - assert (Hne : (take n lines ++ drop n lines)%list <> []).
    { rewrite take_drop. apply split_nonempty. now rewrite HNL. }
    rewrite HNL in Hjoin |- *.
    destruct (insert_counts_crlf (take n lines) (drop n lines) content Hne Hc)
      as [Hcr Hlf].
    rewrite Hjoin in Hcr, Hlf. rewrite newline_by_counts, Hcr, Hlf.
    rewrite HNL in Hdef.
    destruct (Nat.eqb_spec (S (crlfBehind false original) + lfBehind false original) 0);
      [lia|].
    destruct (Nat.ltb_spec (lfBehind false original) (S (crlfBehind false original)));
      [reflexivity|].
    destruct (Nat.eqb_spec (crlfBehind false original + lfBehind false original) 0);
      [lia|].
    destruct (Nat.ltb_spec (lfBehind false original) (crlfBehind false original));
      [lia | now apply crlf_neq_lf in Hdef].
Qed.

End Convention.

(** ** Reading written lines back *)

Module RereadFacts.
Import Host Lines Counting HostFacts SeparatorFacts.

Lemma prefix_lf c s : String.prefix lf (String c s) = isLF c.
Proof.
  change (String.prefix lf (String c s))
    with (if ascii_dec LF c then String.prefix "" s else false).
  unfold isLF. destruct (ascii_dec LF c) as [<-|Hne].
  - now destruct s.
  - symmetry. apply Ascii.eqb_neq. congruence.
Qed.

Lemma prefix_crlf c s :
  String.prefix crlf (String c s)
  = isCR c && match s with String d _ => isLF d | EmptyString => false end.
Proof.
  change (String.prefix crlf (String c s))
    with (if ascii_dec CR c then String.prefix lf s else false).
  unfold isCR. destruct (ascii_dec CR c) as [<-|Hne].
  - rewrite Ascii.eqb_refl. cbn [andb].
    destruct s as [|d s]; [reflexivity|]. apply prefix_lf.
  - assert (Ascii.eqb c CR = false) as -> by (apply Ascii.eqb_neq; congruence).
    reflexivity.
Qed.

Lemma countLF_snoc acc c :
  countLF acc = 0%nat -> isLF c = false -> countLF (snoc acc c) = 0%nat.
Proof.
  intros Ha Hc. unfold snoc. rewrite countLF_app, Ha. cbn. now rewrite Hc.
Qed.

(** The pieces of a split on LF hold no line feed. *)
Lemma splitFrom_lf_plain s : forall acc,
  countLF acc = 0%nat ->
  Forall (fun l => countLF l = 0%nat) (splitFrom lf 0 acc s).
Proof.
  induction s as [|c s IH]; intros acc Ha; [now repeat constructor|].
  cbn [splitFrom]. rewrite prefix_lf. destruct (isLF c) eqn:Hc.
  - constructor; [exact Ha | now apply IH].
  - apply IH. now apply countLF_snoc.
Qed.

(** So do the pieces of a split on CRLF when all separators are CRLF. *)
Lemma splitFrom_crlf_plain n : forall s acc,
  (String.length s <= n)%nat ->
  countLF acc = 0%nat ->
  Forall (eq crlf) (matchAllEOL s) ->
  Forall (fun l => countLF l = 0%nat) (splitFrom crlf 0 acc s).
Proof.
  induction n as [|n IH]; intros s acc Hn Ha Hall.
  - destruct s; [now repeat constructor | cbn in Hn; lia].
  - destruct s as [|c s]; [now repeat constructor|].
    cbn [splitFrom]. rewrite prefix_crlf.
    assert (Hc : isLF c = false).
    { destruct (isLF c) eqn:Hc; [|reflexivity].
      cbn [matchAllEOL] in Hall. rewrite Hc in Hall.
      apply Forall_cons in Hall as [E _]. now apply crlf_neq_lf in E. }
    destruct (isCR c) eqn:Hr.
    + apply Ascii.eqb_eq in Hr. subst c.
      destruct s as [|d s].
      * cbn. repeat constructor. now apply countLF_snoc.
      * rewrite matchAllEOL_CR in Hall. cbn [andb]. destruct (isLF d) eqn:Hd.
        -- apply Forall_cons in Hall as [_ Hall].
           constructor; [exact Ha|]. cbn [String.length Nat.pred splitFrom].
           apply IH; [cbn in Hn; lia | reflexivity | exact Hall].
        -- apply IH; [cbn in Hn |- *; lia | now apply countLF_snoc | exact Hall].
    + cbn [andb]. apply IH; [cbn in Hn; lia | now apply countLF_snoc|].
      cbn [matchAllEOL] in Hall. now rewrite Hc, Hr in Hall.
Qed.

Lemma split_plain sep s :
  sep = lf \/ (sep = crlf /\ Forall (eq crlf) (matchAllEOL s)) ->
  Forall (fun l => countLF l = 0%nat) (split sep s).
Proof.
  intros [->|[-> Hall]].
  - now apply splitFrom_lf_plain.
  - now apply (splitFrom_crlf_plain (String.length s)).
Qed.

(** Scanning over a piece without line feed only extends the piece read so
    far. *)
Lemma splitFrom_lf_piece p : forall acc rest,
  countLF p = 0%nat ->
  splitFrom lf 0 acc (p +:+ rest) = splitFrom lf 0 (acc +:+ p) rest.
Proof.
  induction p as [|c p IH]; intros acc rest Hp.
  - now rewrite append_nil_r.
  - cbn [countLF] in Hp. destruct (isLF c) eqn:Hc; [lia|].
    simpl String.append. cbn [splitFrom]. rewrite prefix_lf, Hc.
    rewrite IH by lia. now rewrite snoc_append.
Qed.

Lemma splitFrom_crlf_piece p : forall acc rest,
  countLF p = 0%nat ->
  startsWithLF rest = false ->
  splitFrom crlf 0 acc (p +:+ rest) = splitFrom crlf 0 (acc +:+ p) rest.
Proof.
  induction p as [|c p IH]; intros acc rest Hp Hrest.
  - now rewrite append_nil_r.
  - cbn [countLF] in Hp. destruct (isLF c) eqn:Hc; [lia|].
    simpl String.append. cbn [splitFrom]. rewrite prefix_crlf.
    assert (Hnext : startsWithLF (p +:+ rest) = false).
    { destruct p as [|d p]; [exact Hrest|]. cbn [countLF] in Hp. cbn.
      destruct (isLF d); [lia | reflexivity]. }
    unfold startsWithLF in Hnext. rewrite Hnext, andb_false_r.
    rewrite IH by (lia || done). now rewrite snoc_append.
Qed.

(** Splitting what was joined gives the pieces back, for pieces without
    line feed. *)
Lemma split_join_lf (pieces : list string) : forall acc,
  pieces <> [] ->
  Forall (fun l => countLF l = 0%nat) pieces ->
  splitFrom lf 0 acc (join lf pieces)
  = match pieces with p :: rest => (acc +:+ p) :: rest | [] => [] end.
Proof.
  induction pieces as [|p rest IH]; intros acc Hne Hplain; [done|].
  apply Forall_cons in Hplain as [Hp Hrest].
  destruct rest as [|q rest].
  - cbn [join]. rewrite <- (append_nil_r p) at 1.
    now rewrite splitFrom_lf_piece.
  - rewrite join_cons by done. rewrite splitFrom_lf_piece by done.
    unfold lf at 2. simpl String.append. cbn [splitFrom]. rewrite prefix_lf.
    change (isLF LF) with true. cbn [String.length lf Nat.pred].
    now rewrite IH.
Qed.

Lemma split_join_crlf (pieces : list string) : forall acc,
  pieces <> [] ->
  Forall (fun l => countLF l = 0%nat) pieces ->
  splitFrom crlf 0 acc (join crlf pieces)
  = match pieces with p :: rest => (acc +:+ p) :: rest | [] => [] end.
Proof.
  induction pieces as [|p rest IH]; intros acc Hne Hplain; [done|].
  apply Forall_cons in Hplain as [Hp Hrest].
  destruct rest as [|q rest].
  - cbn [join]. rewrite <- (append_nil_r p) at 1.
    now rewrite splitFrom_crlf_piece.
  - rewrite join_cons by done. rewrite splitFrom_crlf_piece by done.
    unfold crlf at 2. simpl String.append. cbn [splitFrom]. rewrite prefix_crlf.
    change (isCR CR) with true. change (isLF LF) with true.
    cbn [andb String.length crlf Nat.pred splitFrom].
    now rewrite IH.
Qed.

Lemma split_join (sep : string) (pieces : list string) :
  sep = lf \/ sep = crlf ->
  pieces <> [] ->
  Forall (fun l => countLF l = 0%nat) pieces ->
  split sep (join sep pieces) = pieces.
Proof.
  intros [-> | ->] Hne Hplain.
  - unfold split. cbn [lf]. fold lf. rewrite split_join_lf by done.
    now destruct pieces.
  - unfold split. cbn [crlf]. fold crlf. rewrite split_join_crlf by done.
    now destruct pieces.
Qed.

End RereadFacts.

(** ** Containment *)

Module ContainsFacts.
Import Host Lines HostFacts.

Lemma substring_here s : forall post,
  String.substring 0 (String.length s) (s +:+ post) = s.
Proof. induction s as [|c s IH]; intros post; [now destruct post | cbn; now rewrite IH]. Qed.

Lemma substring_skip pre : forall n text,
  String.substring (String.length pre) n (pre +:+ text) = String.substring 0 n text.
Proof. induction pre as [|c pre IH]; intros n text; [reflexivity | apply IH]. Qed.

(** A text that is cut around [s] contains [s]. *)
Lemma contains_cut pre s post : contains (pre +:+ s +:+ post) s.
Proof.
  exists (String.length pre). now rewrite substring_skip, substring_here.
Qed.

Lemma substring_cut_0 n : forall text,
  String.length (String.substring 0 n text) = n ->
  exists post, text = String.substring 0 n text +:+ post.
Proof.
  induction n as [|n IH]; intros text Hlen.
  - exists text. now destruct text.
  - destruct text as [|c text]; [discriminate|].
    cbn in Hlen |- *. destruct (IH text) as [post Hpost]; [lia|].
    exists post. now rewrite <- Hpost.
Qed.

Lemma substring_cut i : forall n text,
  String.length (String.substring i n text) = n ->
  exists pre post, text = pre +:+ String.substring i n text +:+ post.
Proof.
  induction i as [|i IH]; intros n text Hlen.
  - destruct (substring_cut_0 n text Hlen) as [post Hpost]. now exists "", post.
  - destruct text as [|c text].
    + exists "", "". destruct n; [reflexivity | discriminate].
    + cbn in Hlen |- *. destruct (IH n text Hlen) as (pre & post & Hcut).
      exists (String c pre), post. cbn. now rewrite <- Hcut.
Qed.

(** And a text that contains [s] can be cut around it. *)
Lemma contains_inv text s :
  contains text s -> exists pre post, text = pre +:+ s +:+ post.
Proof.
  intros [i Hi]. destruct (substring_cut i (String.length s) text) as (pre & post & Hcut).
  - now rewrite Hi.
  - rewrite Hi in Hcut. eauto.
Qed.

Lemma join_cut sep (lines : list string) l :
  l ∈ lines -> exists pre post, join sep lines = pre +:+ l +:+ post.
Proof.
  induction 1 as [l rest|l l' rest Hin IH].
  - destruct rest as [|l' rest].
    + exists "", "". cbn. now rewrite append_nil_r.
    + exists "", (sep +:+ join sep (l' :: rest)). now rewrite join_cons.
  - destruct IH as (pre & post & Hcut).
    assert (Hne : rest <> []) by (intros ->; inversion Hin).
    exists (l' +:+ sep +:+ pre), post.
    rewrite join_cons, Hcut by done. now rewrite !append_assoc.
Qed.

(** What a line contains, the joined lines contain. *)
Lemma contains_join sep (lines : list string) l s :
  l ∈ lines -> contains l s -> contains (join sep lines) s.
Proof.
  intros Hin Hl. apply contains_inv in Hl as (pre & post & ->).
  destruct (join_cut sep lines _ Hin) as (pre' & post' & ->).
  replace (pre' +:+ (pre +:+ s +:+ post) +:+ post')
    with ((pre' +:+ pre) +:+ s +:+ (post +:+ post'))
    by now rewrite !append_assoc.
  apply contains_cut.
Qed.

Lemma cut_prefix_plain s : forall l post rest,
  countLF s = 0%nat ->
  s +:+ post = l +:+ String LF rest ->
  exists post', l = s +:+ post'.
Proof.
  induction s as [|d s IH]; intros l post rest Hs Hcut; [now exists l|].
  cbn [countLF] in Hs. destruct (isLF d) eqn:Hd; [lia|].
  destruct l as [|c l]; cbn in Hcut.
  - injection Hcut as -> _. discriminate Hd.
  - injection Hcut as -> Hcut. destruct (IH l post rest) as [post' ->]; [lia|done|].
    now exists post'.
Qed.

(** A text without line feed that occurs in [l], a line feed, [rest] occurs
    in [l] or in [rest]. *)
Lemma cut_plain l : forall pre s post rest,
  countLF s = 0%nat ->
  pre +:+ s +:+ post = l +:+ String LF rest ->
  contains l s \/ contains rest s.
Proof.
  induction l as [|c l IH]; intros pre s post rest Hs Hcut.
  - destruct pre as [|d pre]; cbn in Hcut.
    + left. destruct (cut_prefix_plain s "" post rest Hs Hcut) as [post' ->].
      apply (contains_cut "" s post').
    + injection Hcut as _ <-. right. apply contains_cut.
  - destruct pre as [|d pre].
    + left. destruct (cut_prefix_plain s (String c l) post rest Hs Hcut) as [post' ->].
      apply (contains_cut "" s post').
    + cbn in Hcut. injection Hcut as -> Hcut.
      destruct (IH pre s post rest Hs Hcut) as [Hl|Hr]; [left|now right].
      apply contains_inv in Hl as (pre' & post' & ->).
      apply (contains_cut (String c pre') s post').
Qed.

(** A text without line feed that the joined lines contain lies within one
    line. *)
Lemma contains_join_plain (lines : list string) s :
  lines <> [] ->
  countLF s = 0%nat ->
  contains (join lf lines) s ->
  exists l, l ∈ lines /\ contains l s.
Proof.
  intros Hne Hs. induction lines as [|l rest IH]; [done|]. intros Hc.
  destruct rest as [|l' rest].
  - exists l. split; [constructor | exact Hc].
  - rewrite join_cons in Hc by done.
    apply contains_inv in Hc as (pre & post & Hcut). symmetry in Hcut.
    destruct (cut_plain l pre s post (join lf (l' :: rest)) Hs Hcut) as [Hl|Hr].
    + exists l. split; [constructor | exact Hl].
    + destruct (IH ltac:(done) Hr) as (l0 & Hin & Hl0).
      exists l0. split; [now constructor | exact Hl0].
Qed.

End ContainsFacts.

(** ** The range of the line search *)

Module RangeFacts.
Import Host Lines HostFacts SearchFacts.

Lemma countLF_substringTo_mono s : forall a b,
  (a <= b)%nat -> (countLF (substringTo a s) <= countLF (substringTo b s))%nat.
Proof.
  induction s as [|c s IH]; intros a b Hab.
  - destruct a, b; cbn; lia.
  - destruct a as [|a]; [rewrite substringTo_0; cbn; lia|].
    destruct b as [|b]; [lia|].
    rewrite !substringTo_cons. cbn [countLF].
    specialize (IH a b ltac:(lia)). lia.
Qed.

Lemma substringTo_all s : substringTo (String.length s) s = s.
Proof. induction s as [|c s IH]; [reflexivity|]. cbn [String.length]. now rewrite substringTo_cons, IH. Qed.

Lemma substringTo_past s : forall n,
  (String.length s <= n)%nat -> substringTo n s = s.
Proof.
  induction s as [|c s IH]; intros n Hn; [now destruct n|].
  destruct n as [|n]; [cbn in Hn; lia|].
  rewrite substringTo_cons, IH; [reflexivity | cbn in Hn; lia].
Qed.

Lemma countLF_substringTo_le s n : (countLF (substringTo n s) <= countLF s)%nat.
Proof.
  destruct (Nat.le_gt_cases n (String.length s)) as [H|H].
  - rewrite <- (substringTo_all s) at 2. now apply countLF_substringTo_mono.
  - rewrite substringTo_past by lia. lia.
Qed.

(** Lines without line feed joined by line feeds hold one line feed less
    than there are lines. *)
Lemma countLF_join (lines : list string) :
  Forall (fun l => countLF l = 0%nat) lines ->
  countLF (join lf lines) = Nat.pred (length lines).
Proof.
  induction 1 as [|l rest Hl _ IH]; [reflexivity|].
  destruct rest as [|l' rest]; [exact Hl|].
  rewrite join_cons by done. rewrite !countLF_app, Hl, IH. reflexivity.
Qed.

Lemma findIndexFrom_upper {A} (p : A -> bool) (xs : list A) : forall k,
  0 <= k -> xs <> [] -> findIndexFrom p k xs < k + Z.of_nat (length xs).
Proof.
  induction xs as [|x xs IH]; intros k Hk Hne; [done|].
  cbn [findIndexFrom]. rewrite length_cons, Nat2Z.inj_succ.
  destruct (p x); [lia|].
  destruct xs as [|y xs]; [cbn; lia|].
  specialize (IH (k + 1) ltac:(lia) ltac:(done)). lia.
Qed.

(** The first element that passes a test some element passes. *)
Lemma first_passing {A} (p : A -> bool) (xs : list A) :
  Exists (fun x => p x = true) xs ->
  exists i x, xs !! i = Some x /\ p x = true /\
    forall j y, (j < i)%nat -> xs !! j = Some y -> p y = false.
Proof.
  induction xs as [|x0 xs IH]; intros Hex; [inversion Hex|].
  destruct (p x0) eqn:Hx0.
  - exists 0%nat, x0. repeat split; [exact Hx0|]. intros j y Hj. lia.
  - apply Exists_cons in Hex as [Hex|Hex]; [congruence|].
    destruct (IH Hex) as (i & x & Hi & Hx & Hfirst).
    exists (S i), x. repeat split; [exact Hi | exact Hx|].
    intros [|j] y Hj Hy; [cbn in Hy; congruence|].
    apply (Hfirst j y); [lia | exact Hy].
Qed.

End RangeFacts.

(** ** Anchors *)

Section AnchorFacts.
Import Host Lines HostFacts SearchFacts PatternFacts RangeFacts ContainsFacts.
Context {F : Type}.

(** The three ways [before] and [after] can end for a resolved pattern: a
    line matches on its own, only the joined text matches, or nothing
    does. *)
Lemma anchors_cases (anchor : Callable F Pattern) p matcher lines
    (ctx : PinionContext F) fileName :
  getCallable anchor ctx = Ok p ->
  matcherOf p = Ok matcher ->
  (exists i l,
     lines !! i = Some l /\ matches matcher l = true
     /\ (forall j l', (j < i)%nat -> lines !! j = Some l' -> matches matcher l' = false)
     /\ before anchor lines ctx fileName = Ok {| index := Z.of_nat i; pattern := Some p |}
     /\ after anchor lines ctx fileName
        = Ok {| index := Z.of_nat i + 1; pattern := Some p |})
  \/ (exists m,
        Forall (fun l => matches matcher l = false) lines
        /\ RegExp.exec matcher (join lf lines) = Some m
        /\ before anchor lines ctx fileName
           = Ok {| index := Z.of_nat (countLF
                              (substringUpTo (RegExp.index m) (join lf lines)));
                   pattern := Some p |}
        /\ after anchor lines ctx fileName
           = Ok {| index := Z.of_nat (countLF (substringTo
                       (indexOr0 m + String.length (RegExp.arrayToString m))
                       (join lf lines))) + 1;
                   pattern := Some p |})
  \/ (Forall (fun l => matches matcher l = false) lines
      /\ RegExp.exec matcher (join lf lines) = None
      /\ isThrow (before anchor lines ctx fileName) = true
      /\ isThrow (after anchor lines ctx fileName) = true).
Proof.
  intros Hp Hm. unfold before, after. rewrite Hp.
  destruct (findIndexFrom_range (matches matcher) lines 0) as [[_ Hnone]|[_ Hsome]];
    [lia| |].
  - right. destruct (RegExp.exec matcher (join lf lines)) as [m|] eqn:Hfull.
    + left. exists m. split; [exact Hnone|]. split; [reflexivity|].
      rewrite !(getLineNumber_fallback p matcher lines _ m) by done.
      rewrite !length_splitEOL, !length_matchAllEOL.
      set (nb := countLF _). set (na := countLF _).
      destruct (Z.ltb_spec (Z.of_nat (S nb) - 1) 0); [lia|].
      destruct (Z.ltb_spec (Z.of_nat (S na)) 0); [lia|].
      split; do 2 f_equal; lia.
    + right. split; [exact Hnone|]. split; [reflexivity|].
      rewrite !(getLineNumber_nothing p matcher lines) by done. now cbn.
  - left. destruct (first_passing _ _ Hsome) as (i & l & Hi & Hl & Hfirst).
    exists i, l. split; [exact Hi|]. split; [exact Hl|]. split; [exact Hfirst|].
    rewrite !(getLineNumber_single p matcher lines _ i l) by done.
    rewrite Z.add_0_r.
    destruct (Z.ltb_spec (Z.of_nat i) 0); [lia|].
    destruct (Z.ltb_spec (Z.of_nat i + 1) 0); [lia|]. split; reflexivity.
Qed.

Lemma before_resolves (anchor : Callable F Pattern) lines (ctx : PinionContext F)
    fileName b :
  before anchor lines ctx fileName = Ok b ->
  exists p matcher, getCallable anchor ctx = Ok p /\ matcherOf p = Ok matcher.
Proof.
  unfold before. destruct (getCallable anchor ctx) as [p|e]; [|discriminate].
  intros _. destruct (matcherOf_total p) as [matcher Hm]. eauto.
Qed.

Lemma after_resolves (anchor : Callable F Pattern) lines (ctx : PinionContext F)
    fileName a :
  after anchor lines ctx fileName = Ok a ->
  exists p matcher, getCallable anchor ctx = Ok p /\ matcherOf p = Ok matcher.
Proof.
  unfold after. destruct (getCallable anchor ctx) as [p|e]; [|discriminate].
  intros _. destruct (matcherOf_total p) as [matcher Hm]. eauto.
Qed.

Lemma matches_literal s l : matches (literalRegExp s) l = true <-> contains l s.
Proof.
  rewrite <- execLiteral_contains. unfold matches. cbn.
  destruct (RegExp.execLiteral s l); split; eauto; try discriminate.
  intros [? [=]].
Qed.

Lemma not_matches_literal s l : matches (literalRegExp s) l = false <-> ~ contains l s.
Proof.
  split.
  - intros Hf Hc. apply matches_literal in Hc. congruence.
  - intros Hn. destruct (matches (literalRegExp s) l) eqn:E; [|reflexivity].
    apply matches_literal in E. contradiction.
Qed.

End AnchorFacts.

Section AnchorProperties.
Import Host Lines HostFacts SeparatorFacts SearchFacts PatternFacts.
Import RangeFacts ContainsFacts RereadFacts.
Context {F : Type}.

(** X6: when the match of the joined text, if there is one, carries its
    start offset (as it does for every string pattern and for every regular
    expression without the global flag) and [before] resolves, [after]
    resolves too, to a position strictly past the one of [before], with the
    same pattern. *)
Theorem before_precedes_after
    (anchor : Callable F Pattern) (p : Pattern) (matcher : RegExp.t)
    (lines : list string) (ctx : PinionContext F) (fileName : string)
    (b : LocationResult) :
  getCallable anchor ctx = Ok p ->
  matcherOf p = Ok matcher ->
  (forall m, RegExp.exec matcher (join lf lines) = Some m ->
             is_Some (RegExp.index m)) ->
  before anchor lines ctx fileName = Ok b ->
  exists a, after anchor lines ctx fileName = Ok a
            /\ index b < index a
            /\ pattern a = pattern b.
Proof.
  intros Hp Hm Hoffset Hb.
  destruct (anchors_cases anchor p matcher lines ctx fileName Hp Hm)
    as [(i & l & _ & _ & _ & Hbefore & Hafter)
       |[(m & _ & Hfull & Hbefore & Hafter)|(_ & _ & Hbefore & _)]].
  - rewrite Hbefore in Hb. injection Hb as <-. eexists. split; [exact Hafter|].
    cbn [index pattern]. split; [lia | reflexivity].
  - destruct (Hoffset m Hfull) as [i Hi].
    rewrite Hbefore in Hb. injection Hb as <-. eexists. split; [exact Hafter|].
    cbn [index pattern]. split; [|reflexivity].
    unfold indexOr0. rewrite Hi. cbn [substringUpTo from_option]. unfold id.
    pose proof (countLF_substringTo_mono (join lf lines) i
                  (i + String.length (RegExp.arrayToString m))) as Hmono.
    lia.
  - rewrite Hb in Hbefore. discriminate.
Qed.

(** X7: for lines without line feed, whatever [before] resolves to is the
    position of a line, and whatever [after] resolves to is one past the
    position of a line. *)
Theorem anchor_index_in_range
    (anchor : Callable F Pattern) (lines : list string)
    (ctx : PinionContext F) (fileName : string) :
  lines <> [] ->
  Forall (fun l => countLF l = 0%nat) lines ->
  (forall b, before anchor lines ctx fileName = Ok b ->
             0 <= index b < Z.of_nat (length lines))
  /\ (forall a, after anchor lines ctx fileName = Ok a ->
                1 <= index a <= Z.of_nat (length lines)).
Proof.
  intros Hne Hplain.
  assert (Hlen : (0 < length lines)%nat) by (destruct lines; [done | cbn; lia]).
  assert (Hcount : forall n,
            (countLF (substringTo n (join lf lines)) < length lines)%nat).
  { intros n. pose proof (countLF_substringTo_le (join lf lines) n) as Hle.
    rewrite countLF_join in Hle by done. lia. }
  assert (Hstart : forall o,
            (countLF (substringUpTo o (join lf lines)) < length lines)%nat).
  { intros [n|]; [apply Hcount|]. cbn [substringUpTo].
    rewrite countLF_join by done. lia. }
  split.
  - intros b Hb. destruct (before_resolves _ _ _ _ _ Hb) as (p & matcher & Hp & Hm).
    destruct (anchors_cases anchor p matcher lines ctx fileName Hp Hm)
      as [(i & l & Hi & _ & _ & Hbefore & _)
         |[(m & _ & _ & Hbefore & _)|(_ & _ & Hbefore & _)]].
    + rewrite Hbefore in Hb. injection Hb as <-. cbn [index].
      apply lookup_lt_Some in Hi. lia.
    + rewrite Hbefore in Hb. injection Hb as <-. cbn [index].
      specialize (Hstart (RegExp.index m)). lia.
    + rewrite Hb in Hbefore. discriminate.
  - intros a Ha. destruct (after_resolves _ _ _ _ _ Ha) as (p & matcher & Hp & Hm).
    destruct (anchors_cases anchor p matcher lines ctx fileName Hp Hm)
      as [(i & l & Hi & _ & _ & _ & Hafter)
         |[(m & _ & _ & _ & Hafter)|(_ & _ & _ & Hafter)]].
    + rewrite Hafter in Ha. injection Ha as <-. cbn [index].
      apply lookup_lt_Some in Hi. lia.
    + rewrite Hafter in Ha. injection Ha as <-. cbn [index].
      specialize (Hcount (indexOr0 m + String.length (RegExp.arrayToString m))%nat).
      lia.
    + rewrite Ha in Hafter. discriminate.
Qed.

(** X8: a string pattern is found exactly when the lines joined by line feeds
    contain it: [before] and [after] throw otherwise. *)
Theorem string_pattern_found_iff_contained
    (anchor : Callable F Pattern) (s : string) (lines : list string)
    (ctx : PinionContext F) (fileName : string) :
  getCallable anchor ctx = Ok (PString s) ->
  (isThrow (before anchor lines ctx fileName) = false
   <-> contains (join lf lines) s)
  /\ (isThrow (after anchor lines ctx fileName) = false
   <-> contains (join lf lines) s).
Proof.
  intros Hp.
  destruct (anchors_cases anchor (PString s) (literalRegExp s) lines ctx fileName Hp
              (matcherOf_string s))
    as [(i & l & Hi & Hl & _ & Hbefore & Hafter)
       |[(m & _ & Hfull & Hbefore & Hafter)|(_ & Hfull & Hbefore & Hafter)]].
  - assert (Hc : contains (join lf lines) s).
    { apply (contains_join lf lines l); [now apply list_elem_of_lookup_2 with i|].
      now apply matches_literal. }
    rewrite Hbefore, Hafter. now cbn.
  - assert (Hc : contains (join lf lines) s).
    { apply execLiteral_contains. cbn in Hfull. rewrite Hfull. eauto. }
    rewrite Hbefore, Hafter. now cbn.
  - assert (Hc : ~ contains (join lf lines) s).
    { intros Hc%execLiteral_contains. cbn in Hfull. rewrite Hfull in Hc.
      now destruct Hc. }
    rewrite Hbefore, Hafter. split; split; (discriminate || tauto).
Qed.

(** X9: a string pattern without line feed never takes the cross-line
    fallback: [before] resolves to the first line that contains it, and
    throws when no line does. *)
Theorem plain_string_pattern_single_line
    (anchor : Callable F Pattern) (s : string) (lines : list string)
    (ctx : PinionContext F) (fileName : string) :
  getCallable anchor ctx = Ok (PString s) ->
  countLF s = 0%nat ->
  lines <> [] ->
  match before anchor lines ctx fileName with
  | Ok b =>
      exists i l, index b = Z.of_nat i /\ lines !! i = Some l /\ contains l s
        /\ forall j l', (j < i)%nat -> lines !! j = Some l' -> ~ contains l' s
  | Throw _ => forall l, l ∈ lines -> ~ contains l s
  end.
Proof.
  intros Hp Hs Hne.
  destruct (anchors_cases anchor (PString s) (literalRegExp s) lines ctx fileName Hp
              (matcherOf_string s))
    as [(i & l & Hi & Hl & Hfirst & Hbefore & _)
       |[(m & Hnone & Hfull & _ & _)|(Hnone & _ & Hbefore & _)]].
  - rewrite Hbefore. exists i, l. cbn. split; [reflexivity|]. split; [exact Hi|].
    split; [now apply matches_literal|].
    intros j l' Hj Hl'. apply not_matches_literal. now apply (Hfirst j).
  - exfalso.
    assert (Hc : contains (join lf lines) s).
    { apply execLiteral_contains. cbn in Hfull. rewrite Hfull. eauto. }
    destruct (contains_join_plain lines s Hne Hs Hc) as (l & Hin & Hl).
    rewrite Forall_forall in Hnone. apply matches_literal in Hl.
    rewrite (Hnone l Hin) in Hl. discriminate.
  - destruct (before anchor lines ctx fileName); [discriminate|].
    intros l Hin. apply not_matches_literal.
    rewrite Forall_forall in Hnone. now apply Hnone.
Qed.

End AnchorProperties.

(** ** Outcomes of [inject] *)

Section InjectProperties.
Import Host Lines HostFacts SeparatorFacts RereadFacts PatternFacts.
Context {F : Type}.
Variable EOL : string.
Variable relative : string -> string -> string.

Lemma split_nil sep s : split sep s = [] -> sep = "" /\ s = "".
Proof.
  intros H. destruct sep as [|d sep].
  - split; [reflexivity|]. destruct s; [reflexivity | discriminate].
  - now apply split_nonempty in H.
Qed.

Lemma join_first sep content s :
  join sep (content :: split sep s) = content +:+ sep +:+ s.
Proof.
  destruct (split sep s) as [|l ls] eqn:E.
  - apply split_nil in E as [-> ->]. cbn. now rewrite append_nil_r.
  - rewrite join_cons by done. now rewrite <- E, join_split.
Qed.

Lemma join_last sep content s :
  join sep (split sep s ++ [content]) = s +:+ sep +:+ content.
Proof.
  destruct (split sep s) as [|l ls] eqn:E.
  - apply split_nil in E as [-> ->]. reflexivity.
  - rewrite join_app by done. now rewrite <- E, join_split.
Qed.

(** The five ways [inject] can end. *)
Lemma inject_outcomes template (location : @Location F) target ctx w :
  let run := inject EOL relative template location target ctx w in
  (exists e, run = (Throw e, w))
  \/ (exists e fileName,
        getCallable target ctx = Ok fileName /\ files w !! fileName = None
        /\ run = (Throw e, record_call (ExistsSync fileName) w))
  \/ (exists e fileName original,
        getCallable target ctx = Ok fileName /\ files w !! fileName = Some original
        /\ run = (Throw e,
                  {| files := files w;
                     calls := calls w ++ [ExistsSync fileName; ReadFile fileName];
                     notices := notices w |}))
  \/ (exists fileName content original newContent,
        getCallable target ctx = Ok fileName /\ files w !! fileName = Some original
        /\ run = (Ok (addTrace ctx "inject"
                        [("fileName", fileName); ("content", content)]),
                  {| files := <[fileName := newContent]> (files w);
                     calls := calls w ++ [ExistsSync fileName; ReadFile fileName;
                                          WriteFile fileName newContent];
                     notices := notices w ++
                                ["Updated " +:+ relative (cwd ctx) fileName] |})).
Proof.
  intros run. subst run.
  destruct (getCallable target ctx) as [fileName|e] eqn:Ht.
  2:{ left. exists e. unfold inject, bind, lift. now rewrite Ht. }
  destruct (getCallable template ctx) as [content|e] eqn:Hc.
  2:{ left. exists e. unfold inject, bind, lift. now rewrite Ht, Hc. }
  destruct (files w !! fileName) as [original|] eqn:Hf.
  2:{ right; left. eexists _, fileName. split; [reflexivity|]. split; [exact Hf|].
      now apply inject_absent with (content := content). }
  destruct (location (split (newline EOL original) original) ctx
              (relative (cwd ctx) fileName)) as [loc|e] eqn:Hl.
  - do 3 right. eexists fileName, content, original, _.
    split; [reflexivity|]. split; [exact Hf|].
    now apply inject_resolves with (original := original) (loc := loc).
  - right; right; left. exists e, fileName, original.
    split; [reflexivity|]. split; [exact Hf|].
    now apply inject_throws with (content := content) (original := original).
Qed.

(** X1: with [prepend] the content becomes the first line of the file, with
    [append] the last: the file is the content, the detected separator and
    the original text, in this order, respectively the reverse. *)
Theorem inject_prepend_append
    (template target : Callable F string) (ctx : PinionContext F) (w : World)
    (fileName content original : string) :
  getCallable target ctx = Ok fileName ->
  getCallable template ctx = Ok content ->
  files w !! fileName = Some original ->
  let NL := newline EOL original in
  files (snd (inject EOL relative template prepend target ctx w)) !! fileName
    = Some (content +:+ NL +:+ original)
  /\ files (snd (inject EOL relative template append target ctx w)) !! fileName
    = Some (original +:+ NL +:+ content).
Proof.
  intros Ht Hc Hf NL. split.
  - rewrite (inject_resolves EOL relative template prepend target ctx w
               fileName content original {| index := 0; pattern := None |}
               Ht Hc Hf eq_refl).
    cbn [snd files index]. rewrite lookup_insert_eq. f_equal.
    change (0 <=? 0) with true. cbv iota. unfold splice.
    change (Z.to_nat 0) with 0%nat. rewrite take_0, drop_0.
    apply join_first.
  - rewrite (inject_resolves EOL relative template append target ctx w
               fileName content original
               {| index := Z.of_nat (length (split NL original)); pattern := None |}
               Ht Hc Hf eq_refl).
    cbn [snd files index]. rewrite lookup_insert_eq. f_equal.
    fold NL. destruct (Z.leb_spec 0 (Z.of_nat (length (split NL original)))); [|lia].
    unfold splice. rewrite Nat2Z.id, take_ge, drop_ge by lia.
    apply join_last.
Qed.

(** X2: when [inject] throws, whatever the cause, it has written nothing: the
    files and the log are as they were, and no call to [writeFile] was
    made. *)
Theorem inject_failure_writes_nothing
    (template : Callable F string) (location : @Location F)
    (target : Callable F string) (ctx : PinionContext F) (w : World) :
  isThrow (fst (inject EOL relative template location target ctx w)) = true ->
  let w' := snd (inject EOL relative template location target ctx w) in
  files w' = files w
  /\ notices w' = notices w
  /\ exists made, calls w' = (calls w ++ made)%list
       /\ forall path data, WriteFile path data ∉ made.
Proof.
  intros Hthrow w'. subst w'.
  destruct (inject_outcomes template location target ctx w)
    as [(e & Hrun)|[(e & f & _ & _ & Hrun)|[(e & f & o & _ & _ & Hrun)
       |(f & c & o & n & _ & _ & Hrun)]]];
    rewrite Hrun in Hthrow |- *; cbn [fst snd files notices calls record_call] in *.
  - repeat split. exists []. split; [now rewrite app_nil_r|]. intros ? ? H. now apply not_elem_of_nil in H.
  - repeat split. eexists. split; [reflexivity|].
    intros ? ? H. apply list_elem_of_singleton in H. discriminate.
  - repeat split. eexists. split; [reflexivity|].
    intros ? ? H. repeat (apply elem_of_cons in H as [H|H]; [discriminate|]).
    now apply not_elem_of_nil in H.
  - discriminate.
Qed.

(** X3: [inject] never creates or removes a file, and never changes a file other
    than its target, whether it throws or not. *)
Theorem inject_keeps_other_files
    (template : Callable F string) (location : @Location F)
    (target : Callable F string) (ctx : PinionContext F) (w : World) :
  let w' := snd (inject EOL relative template location target ctx w) in
  dom (files w') = dom (files w)
  /\ forall path, getCallable target ctx <> Ok path ->
                  files w' !! path = files w !! path.
Proof.
  intros w'. subst w'.
  destruct (inject_outcomes template location target ctx w)
    as [(e & Hrun)|[(e & f & _ & _ & Hrun)|[(e & f & o & _ & _ & Hrun)
       |(f & c & o & n & Ht & Hf & Hrun)]]];
    rewrite Hrun; cbn [snd files record_call]; try (split; reflexivity).
  split.
  - rewrite dom_insert_L. apply subseteq_union_1_L, singleton_subseteq_l.
    apply elem_of_dom. eauto.
  - intros path Hpath. apply lookup_insert_ne. congruence.
Qed.

(** X4: injection does not change the convention [newline] detects, when the
    content has no line feed and neither the content nor the file ends in a
    carriage return: a later [inject] splits and joins on the same
    separator. *)
Theorem inject_keeps_convention
    (template : Callable F string) (location : @Location F)
    (target : Callable F string) (ctx : PinionContext F) (w : World)
    (fileName content original : string) (loc : LocationResult) :
  getCallable target ctx = Ok fileName ->
  getCallable template ctx = Ok content ->
  files w !! fileName = Some original ->
  location (split (newline EOL original) original) ctx
           (relative (cwd ctx) fileName) = Ok loc ->
  0 <= index loc ->
  EOL = lf \/ EOL = crlf ->
  countLF content = 0%nat ->
  endsWithCR content = false ->
  endsWithCR original = false ->
  exists written,
    files (snd (inject EOL relative template location target ctx w)) !! fileName
      = Some written
    /\ newline EOL written = newline EOL original.
Proof.
  intros Ht Hc Hf Hl Hpos HE Hplain Hce Hoe.
  rewrite (inject_resolves EOL relative template location target ctx w
             fileName content original loc Ht Hc Hf Hl).
  destruct (Z.leb_spec 0 (index loc)); [|lia].
  eexists. split; [cbn [snd files]; apply lookup_insert_eq|].
  unfold splice. now apply newline_insert.
Qed.

(** X5: under the same conditions, for a file split on LF or a file whose
    separators are all CRLF, reading the written file back and splitting it
    the way [inject] does gives the lines [inject] had, with the content as
    one more line at the resolved position. *)
Theorem inject_lines_read_back
    (template : Callable F string) (location : @Location F)
    (target : Callable F string) (ctx : PinionContext F) (w : World)
    (fileName content original : string) (loc : LocationResult) :
  getCallable target ctx = Ok fileName ->
  getCallable template ctx = Ok content ->
  files w !! fileName = Some original ->
  let lines := split (newline EOL original) original in
  location lines ctx (relative (cwd ctx) fileName) = Ok loc ->
  0 <= index loc ->
  EOL = lf \/ EOL = crlf ->
  countLF content = 0%nat ->
  endsWithCR content = false ->
  endsWithCR original = false ->
  newline EOL original = lf \/ Forall (eq crlf) (matchAllEOL original) ->
  exists written,
    files (snd (inject EOL relative template location target ctx w)) !! fileName
      = Some written
    /\ split (newline EOL written) written = splice lines (index loc) content.
Proof.
  intros Ht Hc Hf lines Hl Hpos HE Hplain Hce Hoe Hkind.
  rewrite (inject_resolves EOL relative template location target ctx w
             fileName content original loc Ht Hc Hf Hl).
  destruct (Z.leb_spec 0 (index loc)); [|lia].
  eexists. split; [cbn [snd files]; apply lookup_insert_eq|].
  unfold splice.
  rewrite (newline_insert EOL original content (Z.to_nat (index loc))) by done.
  fold lines.
  assert (HNL : newline EOL original = lf \/ newline EOL original = crlf)
    by now apply newline_cases.
  assert (Hlines : Forall (fun l => countLF l = 0%nat) lines).
  { apply split_plain. destruct Hkind as [Hlf|Hall]; [now left|].
    destruct HNL as [Hlf|Hcrlf]; [now left | now right]. }
  apply split_join; [exact HNL | now destruct (take _ lines) |].
  apply Forall_app. split; [now apply Forall_take|].
  constructor; [exact Hplain | now apply Forall_drop].
Qed.

(** X11: [escapeString] works code unit by code unit, so it distributes over
    concatenation; it leaves a string as it is exactly when the string has
    none of the escaped characters, and two different strings are never
    escaped to the same pattern. *)
Theorem escapeString_facts :
  (forall a b, escapeString (a +:+ b) = escapeString a +:+ escapeString b)
  /\ (forall s, escapeString s = s
                <-> forall c, In c (list_ascii_of_string s) -> escaped c = false)
  /\ (forall s t, escapeString s = escapeString t -> s = t).
Proof.
  assert (Hlen : forall s, (String.length s <= String.length (escapeString s))%nat).
  { induction s as [|c s IH]; [reflexivity|]. cbn [escapeString].
    destruct (escaped c); cbn [String.length]; lia. }
  split; [|split].
  - induction a as [|c a IH]; intros b; [reflexivity|].
    simpl String.append. cbn [escapeString]. rewrite IH.
    now destruct (escaped c).
  - induction s as [|c s IH]; [split; [intros _ c [] | reflexivity]|].
    cbn [escapeString list_ascii_of_string]. destruct (escaped c) eqn:Hc.
    + split.
      * intros [= _ Hs]. pose proof (Hlen s) as Hle.
        apply (f_equal String.length) in Hs. cbn [String.length] in Hs. lia.
      * intros Hall. rewrite (Hall c) in Hc by now left. discriminate.
    + split.
      * intros [= Hs] d [<-|Hd]; [exact Hc | now apply IH].
      * intros Hall. f_equal. apply IH. intros d Hd. apply Hall. now right.
  - intros s t Hst. pose proof (parseLiteral_escapeString s) as Hs.
    rewrite Hst, parseLiteral_escapeString in Hs. now injection Hs.
Qed.

End InjectProperties.

(** ** Further worked examples *)

Module MoreExamples.
Import Host Lines Fixtures.

(** X1 on the file ["A\nB\nC"]. *)
Lemma inject_prepend_append_witness :
  files (snd (inject lf relativeInside (Literal "X") prepend (Literal target0)
                     ctx0 (world unixFile))) !! target0
    = Some ("X" +:+ lf +:+ unixFile)
  /\ files (snd (inject lf relativeInside (Literal "X") append (Literal target0)
                        ctx0 (world unixFile))) !! target0
    = Some (unixFile +:+ lf +:+ "X").
Proof.
  apply (inject_prepend_append lf relativeInside (Literal "X") (Literal target0)
           ctx0 (world unixFile) target0 "X" unixFile).
  - reflexivity.
  - reflexivity.
  - vm_compute. reflexivity.
Defined.

(** X2 on a target that does not exist. *)
Lemma inject_failure_writes_nothing_witness :
  let w' := snd (inject lf relativeInside (Literal "X") prepend
                        (Literal "/app/missing.ts") ctx0 (world unixFile)) in
  files w' = files (world unixFile)
  /\ notices w' = notices (world unixFile)
  /\ exists made, calls w' = (calls (world unixFile) ++ made)%list
       /\ forall path data, WriteFile path data ∉ made.
Proof.
  apply (inject_failure_writes_nothing lf relativeInside (Literal "X") prepend
           (Literal "/app/missing.ts") ctx0 (world unixFile)).
  vm_compute. reflexivity.
Defined.

(** X3 on the file ["A\nB\nC"]: the set of files is what it was. *)
Lemma inject_keeps_other_files_witness :
  dom (files (snd (inject lf relativeInside (Literal "X") prepend (Literal target0)
                          ctx0 (world unixFile))))
  = dom (files (world unixFile)).
Proof.
  apply (inject_keeps_other_files lf relativeInside (Literal "X") prepend
           (Literal target0) ctx0 (world unixFile)).
Defined.

(** X4 on the file ["A\r\nB\r\nC"]. *)
Lemma inject_keeps_convention_witness :
  exists written,
    files (snd (inject lf relativeInside (Literal "X") append (Literal target0)
                       ctx0 (world dosFile))) !! target0 = Some written
    /\ newline lf written = newline lf dosFile.
Proof.
  apply (inject_keeps_convention lf relativeInside (Literal "X") append
           (Literal target0) ctx0 (world dosFile) target0 "X" dosFile
           {| index := 3; pattern := None |}).
  - reflexivity.
  - reflexivity.
  - vm_compute. reflexivity.
  - reflexivity.
  - cbn. lia.
  - now left.
  - reflexivity.
  - reflexivity.
  - reflexivity.
Defined.

(** X5 on the file ["A\r\nB\r\nC"]. *)
Lemma inject_lines_read_back_witness :
  exists written,
    files (snd (inject lf relativeInside (Literal "X") append (Literal target0)
                       ctx0 (world dosFile))) !! target0 = Some written
    /\ split (newline lf written) written = ["A"; "B"; "C"; "X"].
Proof.
  apply (inject_lines_read_back lf relativeInside (Literal "X") append
           (Literal target0) ctx0 (world dosFile) target0 "X" dosFile
           {| index := 3; pattern := None |}).
  - reflexivity.
  - reflexivity.
  - vm_compute. reflexivity.
  - reflexivity.
  - cbn. lia.
  - now left.
  - reflexivity.
  - reflexivity.
  - reflexivity.
  - right. repeat constructor.
Defined.

(** X6 on the lines A, B, C with the pattern "B". *)
Lemma before_precedes_after_witness :
  exists a, after (Literal (PString "B")) ABC ctx0 "src/index.ts" = Ok a
            /\ 1 < index a
            /\ pattern a = Some (PString "B").
Proof.
  apply (before_precedes_after (Literal (PString "B")) (PString "B")
           (literalRegExp "B") ABC ctx0 "src/index.ts"
           {| index := 1; pattern := Some (PString "B") |}).
  - reflexivity.
  - reflexivity.
  - intros m Hm. vm_compute in Hm. injection Hm as <-. cbn. eauto.
  - reflexivity.
Defined.

(** X7 on the lines A, B, C with a pattern that spans B and C. *)
Lemma anchor_index_in_range_witness :
  (forall b, before (Literal (PString B_LF_C)) ABC ctx0 "src/index.ts" = Ok b ->
             0 <= index b < 3)
  /\ (forall a, after (Literal (PString B_LF_C)) ABC ctx0 "src/index.ts" = Ok a ->
                1 <= index a <= 3).
Proof.
  apply (anchor_index_in_range (Literal (PString B_LF_C)) ABC ctx0 "src/index.ts").
  - discriminate.
  - repeat constructor.
Defined.

(** X8 on the lines A, B, C with a pattern that spans B and C. *)
Lemma string_pattern_found_iff_contained_witness :
  (isThrow (before (Literal (PString B_LF_C)) ABC ctx0 "src/index.ts") = false
   <-> contains (join lf ABC) B_LF_C)
  /\ (isThrow (after (Literal (PString B_LF_C)) ABC ctx0 "src/index.ts") = false
   <-> contains (join lf ABC) B_LF_C).
Proof.
  apply (string_pattern_found_iff_contained (Literal (PString B_LF_C)) B_LF_C ABC
           ctx0 "src/index.ts").
  reflexivity.
Defined.

(** X9 on the lines A, B, C with the pattern "C". *)
Lemma plain_string_pattern_single_line_witness :
  exists i l, 2 = Z.of_nat i /\ ABC !! i = Some l /\ contains l "C"
    /\ forall j l', (j < i)%nat -> ABC !! j = Some l' -> ~ contains l' "C".
Proof.
  apply (plain_string_pattern_single_line (Literal (PString "C")) "C" ABC
           ctx0 "src/index.ts").
  - reflexivity.
  - reflexivity.
  - discriminate.
Defined.

(** X10 on the lines A, B, C with a pattern that spans B and C. *)
Lemma after_cross_line_without_groups_witness :
  after (Literal (PString B_LF_C)) ABC ctx0 "src/index.ts"
    = Ok {| index := 3; pattern := Some (PString B_LF_C) |}
  /\ lineAt ABC (2 + 3) = 2%nat.
Proof.
  destruct (after_cross_line_without_groups (Literal (PString B_LF_C))
              (PString B_LF_C) (literalRegExp B_LF_C) ABC
              {| RegExp.matched := B_LF_C; RegExp.groups := [];
                 RegExp.index := Some 2%nat |}
              2 ctx0 "src/index.ts") as [Hafter Hline];
    try reflexivity.
  - repeat constructor.
  - split; [exact Hafter | reflexivity].
Defined.

(** X11 on the pattern "a.b(c)", in two halves. *)
Lemma escapeString_facts_witness :
  escapeString ("a." +:+ "b(c)") = "a\." +:+ "b\(c\)".
Proof. apply (proj1 escapeString_facts "a." "b(c)"). Defined.

End MoreExamples.
